(** * The registration store of the5quad-bot (src/database.py)

    A shallow embedding of [FootballDatabase]: the two SQLite tables are
    lists of rows kept in rowid order, every method is a function from the
    store (and, where the statement uses CURRENT_TIMESTAMP, the clock) to
    its Python result and the store it leaves behind. *)

From Stdlib Require Import ZArith String Ascii List Bool Lia.
From Stdlib Require Import Sorting.Sorted Sorting.Permutation DecimalString.
Import ListNotations.
Open Scope Z_scope.

(** ** Rows *)

(** The TEXT column [status] of both tables only ever holds the two
    literals the statements write. *)
Inductive status : Type := active | cancelled.

(** The TEXT column [registration_type]. *)
Inductive reg_type : Type := main | reserve.

Definition status_eqb (a b : status) : bool :=
  match a, b with
  | active, active | cancelled, cancelled => true
  | _, _ => false
  end.

Definition reg_type_eqb (a b : reg_type) : bool :=
  match a, b with
  | main, main | reserve, reserve => true
  | _, _ => false
  end.

(** A row of table [events]. *)
Record event : Type := mk_event {
  e_id : Z;
  e_date : string;
  e_time : string;
  e_max_players : Z;
  e_description : string;
  e_created_by : Z;
  e_created_at : Z;
  e_status : status
}.

(** A row of table [registrations]; [username] and [first_name] are
    nullable TEXT columns (Python [None]). *)
Record registration : Type := mk_registration {
  r_id : Z;
  r_event_id : Z;
  r_user_id : Z;
  r_username : option string;
  r_first_name : option string;
  r_registration_type : reg_type;
  r_registered_at : Z;
  r_status : status
}.

(** The database file: both tables, rows in rowid order. *)
Record database : Type := mk_database {
  events : list event;
  registrations : list registration
}.

Definition empty_database : database :=
  {| events := []; registrations := [] |}.

Definition set_e_status (e : event) (s : status) : event :=
  {| e_id := e_id e; e_date := e_date e; e_time := e_time e;
     e_max_players := e_max_players e; e_description := e_description e;
     e_created_by := e_created_by e; e_created_at := e_created_at e;
     e_status := s |}.

Definition set_r_status (r : registration) (s : status) : registration :=
  {| r_id := r_id r; r_event_id := r_event_id r; r_user_id := r_user_id r;
     r_username := r_username r; r_first_name := r_first_name r;
     r_registration_type := r_registration_type r;
     r_registered_at := r_registered_at r; r_status := s |}.

Definition set_r_type (r : registration) (t : reg_type) : registration :=
  {| r_id := r_id r; r_event_id := r_event_id r; r_user_id := r_user_id r;
     r_username := r_username r; r_first_name := r_first_name r;
     r_registration_type := t;
     r_registered_at := r_registered_at r; r_status := r_status r |}.

(** ** The SQL fragments the methods use *)

Section Sql.
Context {A : Type}.

(** [cursor.fetchone()]: the first row of the result, or [None]. *)
Definition fetchone (rows : list A) : option A :=
  match rows with
  | [] => None
  | x :: _ => Some x
  end.

(** [ORDER BY]: an insertion sort.  SQL leaves the order of rows with
    equal keys to the query plan; here they keep the order of the list
    sorted, and no theorem below depends on the order among them. *)
Fixpoint insert_by (leb : A -> A -> bool) (x : A) (l : list A) : list A :=
  match l with
  | [] => [x]
  | y :: l' => if leb x y then x :: l else y :: insert_by leb x l'
  end.

Fixpoint order_by (leb : A -> A -> bool) (l : list A) : list A :=
  match l with
  | [] => []
  | x :: l' => insert_by leb x (order_by leb l')
  end.

(** [UPDATE t SET ... WHERE cond]. *)
Definition update_where (cond : A -> bool) (set : A -> A) (l : list A)
  : list A :=
  map (fun x => if cond x then set x else x) l.

(** [cursor.rowcount] after the UPDATE: the rows the WHERE matched. *)
Definition rowcount (cond : A -> bool) (l : list A) : Z :=
  Z.of_nat (length (filter cond l)).
End Sql.

(** [INTEGER PRIMARY KEY AUTOINCREMENT]: one more than the largest rowid. *)
Definition next_rowid (ids : list Z) : Z :=
  1 + fold_right Z.max 0 ids.

(** [ORDER BY registered_at]. *)
Definition by_registered_at (a b : registration) : bool :=
  r_registered_at a <=? r_registered_at b.

(** [WHERE event_id = ? AND user_id = ? AND status = 'active']. *)
Definition active_for (event_id user_id : Z) (r : registration) : bool :=
  (r_event_id r =? event_id) && (r_user_id r =? user_id)
  && status_eqb (r_status r) active.

(** [WHERE event_id = ? AND registration_type = t AND status = 'active']. *)
Definition active_of_type (event_id : Z) (t : reg_type) (r : registration)
  : bool :=
  (r_event_id r =? event_id) && reg_type_eqb (r_registration_type r) t
  && status_eqb (r_status r) active.

(** The columns of [UNIQUE(event_id, user_id)]. *)
Definition same_key (event_id user_id : Z) (r : registration) : bool :=
  (r_event_id r =? event_id) && (r_user_id r =? user_id).

(** [WHERE id = ?] on [events]. *)
Definition has_id (event_id : Z) (e : event) : bool :=
  e_id e =? event_id.

(** ** Parameters of a statement *)

(** The sqlite3 module binds a Python int to a [?] of a statement only if
    it fits SQLite's 64-bit INTEGER; for any other int [cursor.execute]
    raises OverflowError before the statement runs.  The methods below are
    modelled on parameters that fit, and with room for the next rowid;
    a theorem that depends on this says so with [sqlite_integer] as a
    hypothesis. *)
Definition sqlite_integer (n : Z) : Prop :=
  -9223372036854775808 <= n <= 9223372036854775807.

(** ** Python results *)

Inductive exn : Type := IntegrityError | TypeError.

(** What a call does: it returns a value or an exception leaves it; either
    way the database is in the state given. *)
Inductive outcome (A : Type) : Type :=
| Returned (a : A) (db : database)
| Raised (e : exn) (db : database).
Arguments Returned {A} a db.
Arguments Raised {A} e db.

(** ** Methods of [FootballDatabase] *)

(** [create_event], for [max_players] and [created_by] that fit
    [sqlite_integer]; [now] is CURRENT_TIMESTAMP. *)
Definition create_event (db : database) (now : Z) (date time : string)
    (max_players created_by : Z) (description : string) : Z * database :=
  let lastrowid := next_rowid (map e_id (events db)) in
  (lastrowid,
   {| events := events db ++
        [ {| e_id := lastrowid; e_date := date; e_time := time;
             e_max_players := max_players; e_description := description;
             e_created_by := created_by; e_created_at := now;
             e_status := active |} ];
      registrations := registrations db |}).

(** [get_event]. *)
Definition get_event (db : database) (event_id : Z) : option event :=
  fetchone (filter (has_id event_id) (events db)).

(** The INSERT of [register_user]: the table's UNIQUE(event_id, user_id)
    rejects a second row for the pair, whatever the status of the first. *)
Definition insert_registration (db : database) (now : Z)
    (event_id user_id : Z) (username first_name : option string)
    (t : reg_type) : exn + database :=
  if existsb (same_key event_id user_id) (registrations db)
  then inl IntegrityError
  else inr {| events := events db;
              registrations := registrations db ++
                [ {| r_id := next_rowid (map r_id (registrations db));
                     r_event_id := event_id; r_user_id := user_id;
                     r_username := username; r_first_name := first_name;
                     r_registration_type := t;
                     r_registered_at := now; r_status := active |} ] |}.

(** The body of the [with] block of [register_user]. *)
Definition register_user_body (db : database) (now : Z)
    (event_id user_id : Z) (username first_name : option string)
  : exn + (bool * database) :=
  match fetchone (filter (active_for event_id user_id) (registrations db)) with
  | Some _ => inr (false, db)
  | None =>
    let main_count := rowcount (active_of_type event_id main) (registrations db) in
    match fetchone (filter (has_id event_id) (events db)) with
    | None => inl TypeError   (* cursor.fetchone()[0] on None *)
    | Some row =>
      let max_players := e_max_players row in
      let t := if main_count <? max_players then main else reserve in
      match insert_registration db now event_id user_id username first_name t with
      | inl e => inl e
      | inr db' => inr (true, db')
      end
    end
  end.

(** [register_user], for ids that fit [sqlite_integer]: an exception
    rolls the transaction back; the [except sqlite3.IntegrityError] clause
    turns that one into [False]. *)
Definition register_user (db : database) (now : Z)
    (event_id user_id : Z) (username first_name : option string)
  : outcome bool :=
  match register_user_body db now event_id user_id username first_name with
  | inr (b, db') => Returned b db'
  | inl IntegrityError => Returned false db
  | inl TypeError => Raised TypeError db
  end.

(** [unregister_user], for ids that fit [sqlite_integer]. *)
Definition unregister_user (db : database) (event_id user_id : Z)
  : bool * database :=
  match fetchone (filter (active_for event_id user_id) (registrations db)) with
  | None => (false, db)
  | Some result =>
    let user_reg_type := r_registration_type result in
    let regs1 :=
      update_where (active_for event_id user_id)
                   (fun r => set_r_status r cancelled) (registrations db) in
    let regs2 :=
      match user_reg_type with
      | main =>
        match fetchone (order_by by_registered_at
                 (filter (active_of_type event_id reserve) regs1)) with
        | Some next_user =>
          update_where (active_for event_id (r_user_id next_user))
                       (fun r => set_r_type r main) regs1
        | None => regs1
        end
      | reserve => regs1
      end in
    (true, {| events := events db; registrations := regs2 |})
  end.

(** [cancel_event], for an id that fits [sqlite_integer]. *)
Definition cancel_event (db : database) (event_id : Z) : bool * database :=
  (0 <? rowcount (has_id event_id) (events db),
   {| events := update_where (has_id event_id)
                  (fun e => set_e_status e cancelled) (events db);
      registrations := registrations db |}).

(** The dict [user_info] of [get_event_registrations]. *)
Record user_info : Type := mk_user_info {
  ui_user_id : Z;
  ui_username : option string;
  ui_first_name : option string;
  ui_registered_at : Z
}.

(** The dict [get_event_registrations] returns. *)
Record registrations_by_type : Type := mk_by_type {
  main_list : list user_info;
  reserve_list : list user_info
}.

(** [ORDER BY registration_type, registered_at]; 'main' sorts before
    'reserve'. *)
Definition by_type_then_registered_at (a b : registration) : bool :=
  match r_registration_type a, r_registration_type b with
  | main, reserve => true
  | reserve, main => false
  | _, _ => r_registered_at a <=? r_registered_at b
  end.

(** [get_event_registrations]. *)
Definition get_event_registrations (db : database) (event_id : Z)
  : registrations_by_type :=
  let rows :=
    order_by by_type_then_registered_at
      (filter (fun r => (r_event_id r =? event_id)
                        && status_eqb (r_status r) active)
              (registrations db)) in
  fold_left
    (fun result reg =>
       let info := {| ui_user_id := r_user_id reg;
                      ui_username := r_username reg;
                      ui_first_name := r_first_name reg;
                      ui_registered_at := r_registered_at reg |} in
       match r_registration_type reg with
       | main => {| main_list := main_list result ++ [info];
                    reserve_list := reserve_list result |}
       | reserve => {| main_list := main_list result;
                       reserve_list := reserve_list result ++ [info] |}
       end)
    rows {| main_list := []; reserve_list := [] |}.

(** Python [str(n)] for an int. *)
Definition str (n : Z) : string :=
  NilZero.string_of_int (Z.to_int n).

(** Python [a or b] where [a] is a string or [None]: [None] and the empty
    string are both falsy. *)
Definition or_else (a : option string) (b : string) : string :=
  match a with
  | Some (String c s) => String c s
  | Some EmptyString | None => b
  end.

(** An element of the list [get_players_for_teams] returns. *)
Record player : Type := mk_player {
  p_user_id : Z;
  p_username : option string;
  p_first_name : option string;
  p_display_name : string
}.

Definition player_of (r : registration) : player :=
  {| p_user_id := r_user_id r;
     p_username := r_username r;
     p_first_name := r_first_name r;
     p_display_name :=
       or_else (r_first_name r) (or_else (r_username r) (str (r_user_id r))) |}.

(** [get_players_for_teams]. *)
Definition get_players_for_teams (db : database) (event_id : Z)
  : list player :=
  map player_of
    (order_by by_registered_at
       (filter (active_of_type event_id main) (registrations db))).


(** ** Reachable stores *)

(** The database an outcome leaves behind. *)
Definition db_after {A : Type} (o : outcome A) : database :=
  match o with
  | Returned _ db => db
  | Raised _ db => db
  end.

(** The stores the bot can build: it starts from the empty tables and
    calls the four mutating methods one after the other.  The bounds on
    [max_players] are the check [create_event_command] makes before it
    calls [create_event] (5quadbot.py, "Max players must be between 2 and
    50"). *)
Inductive reachable : database -> Prop :=
| reach_init : reachable empty_database
| reach_create db now date time max_players created_by description :
    reachable db ->
    2 <= max_players <= 50 ->
    reachable (snd (create_event db now date time max_players created_by
                                 description))
| reach_register db now event_id user_id username first_name :
    reachable db ->
    reachable (db_after (register_user db now event_id user_id username
                                       first_name))
| reach_unregister db event_id user_id :
    reachable db ->
    reachable (snd (unregister_user db event_id user_id))
| reach_cancel db event_id :
    reachable db ->
    reachable (snd (cancel_event db event_id)).

(** The columns of [UNIQUE(event_id, user_id)] of a row. *)
Definition key (r : registration) : Z * Z := (r_event_id r, r_user_id r).

(** What the schema guarantees of a stored database: [id] is the primary
    key of [events], (event_id, user_id) is unique in [registrations], and
    every registration belongs to a stored event. *)
Record schema_ok (db : database) : Prop := mk_schema_ok {
  events_pk : NoDup (map e_id (events db));
  registrations_unique : NoDup (map key (registrations db));
  registrations_fk :
    forall r, In r (registrations db) ->
              exists e, In e (events db) /\ e_id e = r_event_id r
}.

(** Invariant 1: no event has more active main registrations than
    [max_players]. *)
Definition capacity_ok (db : database) : Prop :=
  forall e, In e (events db) ->
            rowcount (active_of_type (e_id e) main) (registrations db)
            <= e_max_players e.

(** What [unregister_user] does to one stored row [x], giving [y], when
    the row [r] leaves and the row [p] (if any) moves up from reserve. *)
Definition leave_and_promote (r : registration) (p : option registration)
    (x y : registration) : Prop :=
  (x = r /\ y = set_r_status x cancelled)
  \/ (Some x = p /\ y = set_r_type x main)
  \/ (x <> r /\ Some x <> p /\ y = x).

(** A nullable string Python treats as false: [None] or the empty string. *)
Definition falsy (o : option string) : Prop :=
  o = None \/ o = Some EmptyString.

(** What [register_user] reads of an event row. *)
Definition id_and_capacity (e : event) : Z * Z := (e_id e, e_max_players e).

(** ** Example stores *)

Local Open Scope string_scope.

(** One event for two players, created by admin 1. *)
Definition db_event : database :=
  snd (create_event empty_database 100 "25/12/2024" "19:00" 2 1
                    "Christmas game").

(** Users 10 and 11 joined, then 12, who got a reserve place. *)
Definition db_full : database :=
  db_after (register_user
    (db_after (register_user
      (db_after (register_user db_event 101 1 10 (Some "ann") (Some "Ann")))
      102 1 11 None (Some "Bob")))
    103 1 12 (Some "cy") None).

(** User 10 joined and left again. *)
Definition db_left : database :=
  snd (unregister_user
         (db_after (register_user db_event 101 1 10 (Some "ann") (Some "Ann")))
         1 10).

(** The event was cancelled. *)
Definition db_cancelled : database := snd (cancel_event db_event 1).

(** A user whose first name is the empty string joined. *)
Definition db_empty_first_name : database :=
  db_after (register_user db_event 101 1 10 (Some "bob") (Some "")).

Local Close Scope string_scope.

(** ** The remaining queries of [FootballDatabase] *)

(** [ORDER BY date, time] on the TEXT columns of [events]: SQLite's BINARY
    collation compares the bytes of the strings, the date first. *)
Definition by_date_time (a b : event) : bool :=
  match String.compare (e_date a) (e_date b) with
  | Lt => true
  | Gt => false
  | Eq => String.leb (e_time a) (e_time b)
  end.

(** The seven columns [get_active_events] selects. *)
Definition event_columns (e : event) : Z * string * string * Z * string * Z * Z :=
  (e_id e, e_date e, e_time e, e_max_players e, e_description e,
   e_created_by e, e_created_at e).

(** [get_active_events]. *)
Definition get_active_events (db : database)
  : list (Z * string * string * Z * string * Z * Z) :=
  map event_columns
    (order_by by_date_time
       (filter (fun e => status_eqb (e_status e) active) (events db))).

(** [FROM events e JOIN registrations r ON e.id = r.event_id]: the pairs
    of an event row and a registration row of that event. *)
Definition join_events_registrations (db : database)
  : list (event * registration) :=
  flat_map
    (fun e => map (pair e)
                  (filter (fun r => e_id e =? r_event_id r) (registrations db)))
    (events db).

(** [get_user_registrations]. *)
Definition get_user_registrations (db : database) (user_id : Z)
  : list (Z * string * string * reg_type) :=
  map (fun er => (e_id (fst er), e_date (fst er), e_time (fst er),
                  r_registration_type (snd er)))
    (order_by (fun a b => by_date_time (fst a) (fst b))
       (filter (fun er => (r_user_id (snd er) =? user_id)
                          && status_eqb (r_status (snd er)) active
                          && status_eqb (e_status (fst er)) active)
               (join_events_registrations db))).

(** The [user_info] dict built from a row. *)
Definition user_info_of (r : registration) : user_info :=
  {| ui_user_id := r_user_id r;
     ui_username := r_username r;
     ui_first_name := r_first_name r;
     ui_registered_at := r_registered_at r |}.

(** ** Helpers of the bot (5quadbot.py) *)

(** [team2.pop()]: the last element and the list without it; [None] stands
    for the IndexError on an empty list. *)
Definition list_pop {A : Type} (l : list A) : option (A * list A) :=
  match rev l with
  | [] => None
  | x :: r => Some (x, rev r)
  end.

(** The split of [randomize_teams_command], applied to the shuffled
    players: two halves, and with an odd number of players the last player
    of the second half moves to the first. *)
Definition split_teams {A : Type} (players : list A)
  : option (list A * list A) :=
  let mid_point := (length players / 2)%nat in
  let team1 := firstn mid_point players in
  let team2 := skipn mid_point players in
  if (length players mod 2 =? 1)%nat
  then match list_pop team2 with
       | Some (x, team2') => Some (team1 ++ [x], team2')
       | None => None
       end
  else Some (team1, team2).

(** What [randomize_teams_command] answers an admin who gave an event id. *)
Inductive teams_reply : Type :=
| EventNotFound
| NeedTwoPlayers
| Teams (team1 team2 : list player)
| IndexError.

(** [randomize_teams_command] after the admin check and the parsing of the
    id; [shuffle] is what [random.shuffle] does to the list this time. *)
Definition randomize_teams (shuffle : list player -> list player)
    (db : database) (event_id : Z) : teams_reply :=
  match get_event db event_id with
  | None => EventNotFound
  | Some _ =>
    let players := get_players_for_teams db event_id in
    if (length players <? 2)%nat then NeedTwoPlayers
    else match split_teams (shuffle players) with
         | Some (team1, team2) => Teams team1 team2
         | None => IndexError
         end
  end.

(** Python's [text[:k]] for an int [k]: a negative [k] counts from the end,
    and the bounds are clipped. *)
Definition slice_to {A : Type} (l : list A) (k : Z) : list A :=
  firstn (Z.to_nat (if k <? 0 then Z.max 0 (Z.of_nat (length l) + k) else k))
         l.

(** [truncate]; a Python string is its sequence of code points, and
    [ellipsis] is the one of the character the code appends. *)
Definition truncate {char : Type} (ellipsis : char) (text : list char)
    (max_len : Z) : list char :=
  match text with
  | [] => []
  | _ => if Z.of_nat (length text) <=? max_len then text
         else slice_to text (max_len - 1) ++ [ellipsis]
  end.

(** A store with three events, the second one cancelled. *)
Definition db_three_events : database :=
  snd (cancel_event
    (snd (create_event
      (snd (create_event db_event 110 "01/02/2025"%string "18:30"%string 10 1
                         ""%string))
      120 "01/02/2025"%string "09:00"%string 8 1 "Morning game"%string))
    2).

(** The ids of a table are 1, 2, ... in row order. *)
Definition consecutive_ids (ids : list Z) : Prop :=
  ids = map Z.of_nat (seq 1 (length ids)).

(** Nobody is on the reserve list of an event while one of its main
    places is free. *)
Definition reserve_only_when_full (db : database) : Prop :=
  forall e, In e (events db) ->
            0 < rowcount (active_of_type (e_id e) reserve) (registrations db) ->
            e_max_players e
            <= rowcount (active_of_type (e_id e) main) (registrations db).

(** ** Facts about the SQL fragments *)

Section SqlFacts.
Context {A : Type}.
Implicit Types (l : list A) (f : A -> bool).

Lemma fetchone_filter_None f l :
  fetchone (filter f l) = None <-> (forall x, In x l -> f x = false).
Proof.
  induction l as [|a l IH]; simpl.
  - split; [intros _ x [] | reflexivity].
  - destruct (f a) eqn:Ea; simpl.
    + split; [discriminate |].
      intros H. rewrite (H a (or_introl eq_refl)) in Ea. discriminate.
    + rewrite IH. split.
      * intros H x [<- | Hx]; auto.
      * intros H x Hx. apply H. now right.
Qed.

Lemma fetchone_In l x : fetchone l = Some x -> In x l.
Proof. destruct l; simpl; [discriminate | intros [= ->]; now left]. Qed.

Lemma fetchone_filter_Some f l x :
  fetchone (filter f l) = Some x -> In x l /\ f x = true.
Proof. intros H. apply fetchone_In in H. now apply filter_In in H. Qed.

Lemma fetchone_filter_exists f l x :
  In x l -> f x = true -> exists y, fetchone (filter f l) = Some y.
Proof.
  intros Hin Hf.
  destruct (fetchone (filter f l)) as [y|] eqn:E; [now exists y |].
  rewrite fetchone_filter_None in E. rewrite (E x Hin) in Hf. discriminate.
Qed.

Lemma rowcount_pos_iff f l :
  0 < rowcount f l <-> exists x, In x l /\ f x = true.
Proof.
  unfold rowcount. split.
  - intros H. destruct (filter f l) as [|x t] eqn:E; simpl in H; [lia |].
    exists x. apply filter_In. rewrite E. now left.
  - intros [x Hx]. apply filter_In in Hx.
    destruct (filter f l); simpl in *; [contradiction | lia].
Qed.

Lemma rowcount_app f l1 l2 :
  rowcount f (l1 ++ l2) = rowcount f l1 + rowcount f l2.
Proof. unfold rowcount. rewrite filter_app, length_app. lia. Qed.

(** An UPDATE that touches no row leaves the table as it is. *)
Lemma update_where_none f (set : A -> A) l :
  (forall x, In x l -> f x = false) -> update_where f set l = l.
Proof.
  intros H. unfold update_where.
  rewrite <- (map_id l) at 2. apply map_ext_in.
  intros x Hx. now rewrite (H x Hx).
Qed.

(** Counting after an UPDATE: a row counts afterwards only if it counted
    before or was one of the rows [q] singles out. *)
Lemma rowcount_update_le (p q f : A -> bool) (set : A -> A) l :
  (forall x, In x l -> p (if f x then set x else x) = true ->
             p x = true \/ q x = true) ->
  rowcount p (update_where f set l) <= rowcount p l + rowcount q l.
Proof.
  unfold rowcount, update_where. intros H.
  enough (length (filter p (map (fun x => if f x then set x else x) l))
          <= length (filter p l) + length (filter q l))%nat by lia.
  induction l as [|a l IH]; [simpl; lia |].
  assert (IH' := IH (fun x Hx => H x (or_intror Hx))).
  specialize (H a (or_introl eq_refl)).
  cbn [map filter].
  destruct (p (if f a then set a else a)) eqn:E1.
  - destruct (H eq_refl) as [-> | ->];
      destruct (p a), (q a); cbn [length]; lia.
  - destruct (p a), (q a); cbn [length]; lia.
Qed.

(** Counting after an UPDATE that only takes rows out of the count. *)
Lemma rowcount_update_mono (p f : A -> bool) (set : A -> A) l :
  (forall y, In y l -> p (if f y then set y else y) = true -> p y = true) ->
  rowcount p (update_where f set l) <= rowcount p l.
Proof.
  unfold rowcount, update_where. intros H.
  enough (length (filter p (map (fun x => if f x then set x else x) l))
          <= length (filter p l))%nat by lia.
  induction l as [|a l IH]; [simpl; lia |].
  assert (IH' := IH (fun x Hx => H x (or_intror Hx))).
  specialize (H a (or_introl eq_refl)).
  cbn [map filter].
  destruct (p (if f a then set a else a)) eqn:E1.
  - rewrite (H eq_refl). cbn [length]. lia.
  - destruct (p a); cbn [length]; lia.
Qed.

(** ... and takes at least one out. *)
Lemma rowcount_update_lt (p f : A -> bool) (set : A -> A) l x :
  (forall y, In y l -> p (if f y then set y else y) = true -> p y = true) ->
  In x l -> p x = true -> p (if f x then set x else x) = false ->
  rowcount p (update_where f set l) + 1 <= rowcount p l.
Proof.
  induction l as [|a l IH]; intros H Hin Hpx Hout; [contradiction |].
  assert (Hmono := rowcount_update_mono p f set l
                     (fun y Hy => H y (or_intror Hy))).
  assert (Ha := H a (or_introl eq_refl)).
  unfold rowcount, update_where in *. cbn [map filter].
  destruct Hin as [-> | Hin].
  - rewrite Hout, Hpx. cbn [length]. lia.
  - assert (IH' := IH (fun y Hy => H y (or_intror Hy)) Hin Hpx Hout).
    destruct (p (if f a then set a else a)) eqn:E.
    + rewrite (Ha eq_refl). cbn [length]. lia.
    + destruct (p a); cbn [length]; lia.
Qed.

Lemma Forall2_map_In {B : Type} (R : A -> B -> Prop) (g : A -> B) l :
  (forall x, In x l -> R x (g x)) -> Forall2 R l (map g l).
Proof.
  induction l as [|a l IH]; simpl; intros H; constructor.
  - apply H. now left.
  - apply IH. intros x Hx. apply H. now right.
Qed.

(** *** ORDER BY *)

Variable leb : A -> A -> bool.

Lemma insert_by_perm x l : Permutation (insert_by leb x l) (x :: l).
Proof.
  induction l as [|y l IH]; simpl; [reflexivity |].
  destruct (leb x y); [reflexivity |].
  rewrite IH. apply perm_swap.
Qed.

Lemma order_by_perm l : Permutation (order_by leb l) l.
Proof.
  induction l as [|x l IH]; simpl; [reflexivity |].
  rewrite insert_by_perm. now constructor.
Qed.

Lemma order_by_In l x : In x (order_by leb l) <-> In x l.
Proof.
  split; apply Permutation_in;
    [apply order_by_perm | symmetry; apply order_by_perm].
Qed.

Hypothesis leb_total : forall a b, leb a b = true \/ leb b a = true.

Lemma insert_by_sorted x l :
  Sorted (fun a b => leb a b = true) l ->
  Sorted (fun a b => leb a b = true) (insert_by leb x l).
Proof.
  induction l as [|y l IH]; simpl; intros Hs.
  - repeat constructor.
  - destruct (leb x y) eqn:E.
    + constructor; [exact Hs |]. now constructor.
    + inversion Hs as [|? ? Hs' Hhd]; subst.
      constructor; [now apply IH |].
      assert (Hyx : leb y x = true)
        by (destruct (leb_total x y) as [H | H]; [congruence | exact H]).
      destruct l as [|z l]; simpl.
      * now constructor.
      * destruct (leb x z); constructor; [exact Hyx |].
        now inversion Hhd.
Qed.

Lemma order_by_sorted l : Sorted (fun a b => leb a b = true) (order_by leb l).
Proof.
  induction l as [|x l IH]; simpl; [constructor |].
  now apply insert_by_sorted.
Qed.

Hypothesis leb_trans :
  forall a b c, leb a b = true -> leb b c = true -> leb a c = true.

Lemma order_by_strongly_sorted l :
  StronglySorted (fun a b => leb a b = true) (order_by leb l).
Proof.
  apply Sorted_StronglySorted; [| apply order_by_sorted].
  intros a b c. apply leb_trans.
Qed.

(** [ORDER BY ... LIMIT 1] picks a row no other row comes before. *)
Lemma fetchone_order_by_least l x :
  fetchone (order_by leb l) = Some x ->
  In x l /\ forall y, In y l -> leb x y = true.
Proof.
  intros H. split.
  - apply order_by_In. now apply fetchone_In.
  - intros y Hy. apply order_by_In in Hy.
    assert (Hs := order_by_strongly_sorted l).
    destruct (order_by leb l) as [|h t]; simpl in H; [discriminate |].
    injection H as ->.
    inversion Hs as [|? ? _ Hall]; subst.
    destruct Hy as [<- | Hy].
    + destruct (leb_total x x); assumption.
    + rewrite Forall_forall in Hall. now apply Hall.
Qed.

Lemma fetchone_order_by_None l :
  fetchone (order_by leb l) = None <-> l = [].
Proof.
  split.
  - intros H. destruct l as [|a l]; [reflexivity |].
    assert (Hin : In a (order_by leb (a :: l))) by (apply order_by_In; now left).
    destruct (order_by leb (a :: l)); [contradiction | discriminate].
  - now intros ->.
Qed.
End SqlFacts.

(** ** Facts about the WHERE clauses and the keys *)

Lemma status_eqb_eq a b : status_eqb a b = true <-> a = b.
Proof. destruct a, b; simpl; split; congruence. Qed.

Lemma reg_type_eqb_eq a b : reg_type_eqb a b = true <-> a = b.
Proof. destruct a, b; simpl; split; congruence. Qed.

Lemma active_for_true event_id user_id r :
  active_for event_id user_id r = true <->
  r_event_id r = event_id /\ r_user_id r = user_id /\ r_status r = active.
Proof.
  unfold active_for.
  rewrite !andb_true_iff, !Z.eqb_eq, status_eqb_eq. tauto.
Qed.

Lemma active_of_type_true event_id t r :
  active_of_type event_id t r = true <->
  r_event_id r = event_id /\ r_registration_type r = t /\ r_status r = active.
Proof.
  unfold active_of_type.
  rewrite !andb_true_iff, Z.eqb_eq, reg_type_eqb_eq, status_eqb_eq. tauto.
Qed.

Lemma same_key_true event_id user_id r :
  same_key event_id user_id r = true <-> key r = (event_id, user_id).
Proof.
  unfold same_key, key. rewrite andb_true_iff, !Z.eqb_eq.
  split; [intros [-> ->]; reflexivity | intros [= -> ->]; auto].
Qed.

Lemma has_id_true event_id e : has_id event_id e = true <-> e_id e = event_id.
Proof. apply Z.eqb_eq. Qed.

Lemma key_inj (l : list registration) x y :
  NoDup (map key l) -> In x l -> In y l -> key x = key y -> x = y.
Proof.
  induction l as [|a l IH]; simpl; intros Hnd Hx Hy Hk; [contradiction |].
  inversion Hnd as [|? ? Hnotin Hnd']; subst.
  destruct Hx as [-> | Hx], Hy as [-> | Hy]; auto.
  - exfalso. apply Hnotin. rewrite Hk. now apply in_map.
  - exfalso. apply Hnotin. rewrite <- Hk. now apply in_map.
Qed.

Lemma id_inj (l : list event) x y :
  NoDup (map e_id l) -> In x l -> In y l -> e_id x = e_id y -> x = y.
Proof.
  induction l as [|a l IH]; simpl; intros Hnd Hx Hy Hk; [contradiction |].
  inversion Hnd as [|? ? Hnotin Hnd']; subst.
  destruct Hx as [-> | Hx], Hy as [-> | Hy]; auto.
  - exfalso. apply Hnotin. rewrite Hk. now apply in_map.
  - exfalso. apply Hnotin. rewrite <- Hk. now apply in_map.
Qed.

(** With [id] a primary key, the SELECT by id returns the stored row. *)
Lemma get_event_In db e :
  NoDup (map e_id (events db)) -> In e (events db) ->
  get_event db (e_id e) = Some e.
Proof.
  intros Hnd Hin. unfold get_event.
  destruct (fetchone_filter_exists (has_id (e_id e)) (events db) e Hin)
    as [y Hy]; [now apply has_id_true |].
  rewrite Hy. f_equal.
  apply fetchone_filter_Some in Hy as [Hy1 Hy2].
  apply has_id_true in Hy2. eapply id_inj; eauto.
Qed.

(** With (event_id, user_id) unique, the SELECT of the user's active
    registration returns the stored row. *)
Lemma fetchone_active_for l r :
  NoDup (map key l) -> In r l -> r_status r = active ->
  fetchone (filter (active_for (r_event_id r) (r_user_id r)) l) = Some r.
Proof.
  intros Hnd Hin Hact.
  destruct (fetchone_filter_exists
              (active_for (r_event_id r) (r_user_id r)) l r Hin) as [y Hy];
    [now apply active_for_true |].
  rewrite Hy. f_equal.
  apply fetchone_filter_Some in Hy as [Hy1 Hy2].
  apply active_for_true in Hy2 as (He & Hu & _).
  eapply key_inj; eauto. unfold key. congruence.
Qed.

Lemma update_where_keys f (set : registration -> registration) l :
  (forall r, key (set r) = key r) ->
  map key (update_where f set l) = map key l.
Proof.
  intros H. unfold update_where. rewrite map_map. apply map_ext.
  intros r. destruct (f r); auto.
Qed.

Lemma update_where_event_ids f (set : registration -> registration) l :
  (forall r, r_event_id (set r) = r_event_id r) ->
  forall y, In y (update_where f set l) ->
            exists x, In x l /\ r_event_id x = r_event_id y.
Proof.
  intros H y Hy. unfold update_where in Hy. apply in_map_iff in Hy.
  destruct Hy as (x & <- & Hx). exists x. split; [exact Hx |].
  destruct (f x); auto.
Qed.

Lemma next_rowid_fresh ids : forall i, In i ids -> i < next_rowid ids.
Proof.
  unfold next_rowid. induction ids as [|a ids IH]; cbn [fold_right In];
    intros i Hi.
  - contradiction.
  - destruct Hi as [-> | Hi]; [lia |]. specialize (IH i Hi). lia.
Qed.

(** ** The methods keep the schema *)

Lemma create_event_schema db now date time max_players created_by description :
  schema_ok db ->
  schema_ok (snd (create_event db now date time max_players created_by
                               description)).
Proof.
  intros [Hpk Huq Hfk]. split; simpl.
  - rewrite map_app. simpl.
    apply NoDup_app; [exact Hpk | repeat constructor; simpl; tauto |].
    intros i Hi [<- | []].
    apply next_rowid_fresh in Hi. lia.
  - exact Huq.
  - intros r Hr. destruct (Hfk r Hr) as (e & He & Hid).
    exists e. split; [apply in_or_app; now left | exact Hid].
Qed.

Lemma insert_registration_schema db now event_id user_id username first_name
      t db' :
  schema_ok db ->
  (exists e, In e (events db) /\ e_id e = event_id) ->
  insert_registration db now event_id user_id username first_name t = inr db' ->
  schema_ok db'.
Proof.
  intros [Hpk Huq Hfk] Hev. unfold insert_registration.
  destruct (existsb (same_key event_id user_id) (registrations db)) eqn:E;
    [discriminate |].
  intros [= <-]. split; simpl.
  - exact Hpk.
  - rewrite map_app. simpl.
    apply NoDup_app; [exact Huq | repeat constructor; simpl; tauto |].
    intros k Hk [<- | []].
    apply in_map_iff in Hk as (r & Hkr & Hr).
    assert (Hex : existsb (same_key event_id user_id) (registrations db) = true).
    { apply existsb_exists. exists r. split; [exact Hr |].
      now apply same_key_true. }
    congruence.
  - intros r Hr. apply in_app_or in Hr as [Hr | [<- | []]]; [now apply Hfk |].
    exact Hev.
Qed.

Lemma register_user_schema db now event_id user_id username first_name :
  schema_ok db ->
  schema_ok (db_after (register_user db now event_id user_id username
                                     first_name)).
Proof.
  intros Hok. unfold register_user, register_user_body.
  destruct (fetchone (filter (active_for event_id user_id) (registrations db)));
    [exact Hok |].
  destruct (fetchone (filter (has_id event_id) (events db))) as [row|] eqn:Erow;
    [| exact Hok].
  destruct (insert_registration _ _ _ _ _ _ _) as [[]|db'] eqn:Eins;
    simpl; try exact Hok.
  eapply insert_registration_schema; eauto.
  apply fetchone_filter_Some in Erow as [H1 H2].
  exists row. split; [exact H1 | now apply has_id_true].
Qed.

Lemma unregister_user_schema db event_id user_id :
  schema_ok db -> schema_ok (snd (unregister_user db event_id user_id)).
Proof.
  intros Hok. unfold unregister_user.
  destruct (fetchone (filter (active_for event_id user_id) (registrations db)))
    as [result|]; [| exact Hok].
  destruct Hok as [Hpk Huq Hfk].
  set (regs1 := update_where _ _ (registrations db)).
  assert (Hk1 : map key regs1 = map key (registrations db))
    by (apply update_where_keys; reflexivity).
  assert (Hfk1 : forall r, In r regs1 ->
            exists e, In e (events db) /\ e_id e = r_event_id r).
  { intros r Hr.
    apply update_where_event_ids in Hr as (x & Hx & <-); [| reflexivity].
    now apply Hfk. }
  assert (Hok1 : schema_ok {| events := events db; registrations := regs1 |}).
  { split; simpl; [exact Hpk | now rewrite Hk1 | exact Hfk1]. }
  destruct (r_registration_type result); simpl; [| exact Hok1].
  destruct (fetchone _) as [next_user|]; [| exact Hok1].
  split; simpl.
  - exact Hpk.
  - rewrite update_where_keys by reflexivity. now rewrite Hk1.
  - intros r Hr.
    apply update_where_event_ids in Hr as (x & Hx & <-); [| reflexivity].
    now apply Hfk1.
Qed.

Lemma cancel_event_schema db event_id :
  schema_ok db -> schema_ok (snd (cancel_event db event_id)).
Proof.
  intros [Hpk Huq Hfk]. split; simpl.
  - unfold update_where. rewrite map_map.
    erewrite map_ext; [exact Hpk |].
    intros e. destruct (has_id event_id e); reflexivity.
  - exact Huq.
  - intros r Hr. destruct (Hfk r Hr) as (e & He & Hid).
    exists (if has_id event_id e then set_e_status e cancelled else e).
    split.
    + unfold update_where.
      apply (in_map (fun e => if has_id event_id e
                              then set_e_status e cancelled else e)) in He.
      exact He.
    + destruct (has_id event_id e); exact Hid.
Qed.

Lemma reachable_schema db : reachable db -> schema_ok db.
Proof.
  induction 1.
  - split; simpl; [constructor | constructor | intros r []].
  - now apply create_event_schema.
  - now apply register_user_schema.
  - now apply unregister_user_schema.
  - now apply cancel_event_schema.
Qed.

(** ** The methods keep the capacity bound *)

Lemma rowcount_same_key_le_1 l event_id user_id :
  NoDup (map key l) -> rowcount (same_key event_id user_id) l <= 1.
Proof.
  intros Hnd. unfold rowcount.
  enough (length (filter (same_key event_id user_id) l) <= 1)%nat by lia.
  induction l as [|a l IH]; cbn [filter map] in *; [simpl; lia |].
  inversion Hnd as [|? ? Hnotin Hnd']; subst.
  specialize (IH Hnd').
  destruct (same_key event_id user_id a) eqn:Ea; [| exact IH].
  destruct (filter (same_key event_id user_id) l) as [|x t] eqn:Ef;
    [simpl; lia |].
  exfalso. apply Hnotin.
  assert (Hx : In x (filter (same_key event_id user_id) l))
    by (rewrite Ef; now left).
  apply filter_In in Hx as [Hx1 Hx2].
  apply same_key_true in Ea. apply same_key_true in Hx2.
  rewrite Ea, <- Hx2. now apply in_map.
Qed.

Lemma rowcount_zero {A : Type} (f : A -> bool) l :
  (forall x, In x l -> f x = false) -> rowcount f l = 0.
Proof.
  intros H. unfold rowcount.
  destruct (filter f l) as [|x t] eqn:Ef; [reflexivity |].
  assert (Hx : In x (filter f l)) by (rewrite Ef; now left).
  apply filter_In in Hx as [Hx1 Hx2]. rewrite (H x Hx1) in Hx2. discriminate.
Qed.

Lemma create_event_capacity db now date time max_players created_by
      description :
  schema_ok db -> capacity_ok db -> 0 <= max_players ->
  capacity_ok (snd (create_event db now date time max_players created_by
                                 description)).
Proof.
  intros [Hpk Huq Hfk] Hcap Hmax e He. simpl in *.
  apply in_app_or in He as [He | [<- | []]]; [now apply Hcap |].
  simpl. rewrite rowcount_zero; [exact Hmax |].
  intros x Hx.
  destruct (active_of_type _ main x) eqn:E; [| reflexivity].
  apply active_of_type_true in E as (Hid & _).
  destruct (Hfk x Hx) as (e & He & Hid').
  assert (Hlt := next_rowid_fresh (map e_id (events db)) (e_id e)
                   (in_map e_id _ _ He)).
  lia.
Qed.

Lemma register_user_capacity db now event_id user_id username first_name :
  schema_ok db -> capacity_ok db ->
  capacity_ok (db_after (register_user db now event_id user_id username
                                       first_name)).
Proof.
  intros [Hpk Huq Hfk] Hcap. unfold register_user, register_user_body.
  destruct (fetchone (filter (active_for event_id user_id) (registrations db)));
    [exact Hcap |].
  destruct (fetchone (filter (has_id event_id) (events db))) as [row|] eqn:Erow;
    [| exact Hcap].
  unfold insert_registration.
  destruct (existsb _ _); [exact Hcap |].
  cbn [db_after]. intros e He. cbn [events registrations] in *.
  rewrite rowcount_app. specialize (Hcap e He).
  apply fetchone_filter_Some in Erow as [Hrow1 Hrow2].
  apply has_id_true in Hrow2.
  unfold rowcount at 2. cbn [filter].
  destruct (active_of_type (e_id e) main _) eqn:Enew; [| simpl; lia].
  apply active_of_type_true in Enew as (Hid & Ht & _). cbn in Hid, Ht.
  assert (e = row) by (eapply id_inj; eauto; congruence). subst e.
  rewrite Hrow2 in *.
  destruct (_ <? e_max_players row) eqn:Elt; [| discriminate].
  apply Z.ltb_lt in Elt. simpl. lia.
Qed.

Lemma unregister_user_capacity db event_id user_id :
  schema_ok db -> capacity_ok db ->
  capacity_ok (snd (unregister_user db event_id user_id)).
Proof.
  intros [Hpk Huq Hfk] Hcap. unfold unregister_user.
  destruct (fetchone (filter (active_for event_id user_id) (registrations db)))
    as [result|] eqn:Eres; [| exact Hcap].
  apply fetchone_filter_Some in Eres as [Hres1 Hres2].
  set (regs1 := update_where (active_for event_id user_id)
                  (fun r => set_r_status r cancelled) (registrations db)).
  assert (Hmono1 : forall e', rowcount (active_of_type e' main) regs1
                     <= rowcount (active_of_type e' main) (registrations db)).
  { intros e'. apply rowcount_update_mono. intros y _.
    destruct (active_for event_id user_id y); [| auto].
    intros H. apply active_of_type_true in H as (_ & _ & H). discriminate. }
  destruct (r_registration_type result) eqn:Etype; cbn [snd];
    intros e He; cbn [events registrations] in *;
    specialize (Hcap e He).
  2: { specialize (Hmono1 (e_id e)). lia. }
  destruct (fetchone _) as [next_user|] eqn:Enext.
  2: { specialize (Hmono1 (e_id e)). lia. }
  destruct (Z.eq_dec (e_id e) event_id) as [Heq | Hne].
  - (* the event that was left: one main row gone, at most one promoted *)
    assert (Hlt : rowcount (active_of_type (e_id e) main) regs1 + 1
                  <= rowcount (active_of_type (e_id e) main) (registrations db)).
    { apply rowcount_update_lt with (x := result); auto.
      - intros y _. destruct (active_for event_id user_id y); [| auto].
        intros H. apply active_of_type_true in H as (_ & _ & H). discriminate.
      - apply active_of_type_true. apply active_for_true in Hres2.
        intuition congruence.
      - rewrite Hres2. unfold active_of_type. cbn.
        now rewrite andb_false_r. }
    assert (Hk1 : map key regs1 = map key (registrations db))
      by (apply update_where_keys; reflexivity).
    assert (Hone := rowcount_same_key_le_1 regs1 event_id
                      (r_user_id next_user)).
    rewrite Hk1 in Hone. specialize (Hone Huq).
    assert (Hle := rowcount_update_le (active_of_type (e_id e) main)
              (same_key event_id (r_user_id next_user))
              (active_for event_id (r_user_id next_user))
              (fun r => set_r_type r main) regs1).
    lapply Hle; [lia |].
    intros x _. destruct (active_for _ _ x) eqn:Ef; [| auto].
    intros _. right. apply active_for_true in Ef as (H1 & H2 & _).
    apply same_key_true. unfold key. congruence.
  - (* another event: its rows are not touched by the promotion *)
    specialize (Hmono1 (e_id e)).
    assert (Hmono2 : rowcount (active_of_type (e_id e) main)
              (update_where (active_for event_id (r_user_id next_user))
                            (fun r => set_r_type r main) regs1)
              <= rowcount (active_of_type (e_id e) main) regs1).
    { apply rowcount_update_mono. intros y _.
      destruct (active_for _ _ y) eqn:Ef; [| auto].
      intros H. apply active_of_type_true in H as (H & _). cbn in H.
      apply active_for_true in Ef as (H' & _). congruence. }
    lia.
Qed.

Lemma cancel_event_capacity db event_id :
  capacity_ok db -> capacity_ok (snd (cancel_event db event_id)).
Proof.
  intros Hcap e He. cbn [snd cancel_event events registrations] in *.
  unfold update_where in He. apply in_map_iff in He as (e0 & <- & He0).
  specialize (Hcap e0 He0). destruct (has_id event_id e0); exact Hcap.
Qed.

Lemma reachable_capacity db : reachable db -> capacity_ok db.
Proof.
  induction 1 as [| db now date time mp cb descr Hr IH Hmp
                  | db now e u un fn Hr IH | db e u Hr IH | db e Hr IH].
  - intros e [].
  - apply create_event_capacity; auto using reachable_schema. lia.
  - apply register_user_capacity; auto using reachable_schema.
  - apply unregister_user_capacity; auto using reachable_schema.
  - now apply cancel_event_capacity.
Qed.

(** ** The claims *)

(** The scenario of three joins to an event for two players, then the
    first player leaving. *)
Example join_leave_scenario :
  let ids l := map ui_user_id l in
  let before := get_event_registrations db_full 1 in
  let after := get_event_registrations (snd (unregister_user db_full 1 10)) 1 in
  (ids (main_list before), ids (reserve_list before)) = ([10; 11], [12])
  /\ fst (unregister_user db_full 1 10) = true
  /\ (ids (main_list after), ids (reserve_list after)) = ([11; 12], []).
Proof. repeat split; reflexivity. Qed.

(** *** Joining twice *)

(** C6: when the user already has an active registration for the event,
    [register_user] returns [False] and the database is exactly as it was:
    no row is inserted and none is modified. *)
Theorem register_user_already_active :
  forall db now event_id user_id username first_name,
    (exists r, In r (registrations db) /\ r_event_id r = event_id /\
               r_user_id r = user_id /\ r_status r = active) ->
    register_user db now event_id user_id username first_name
    = Returned false db.
Proof.
  intros db now event_id user_id username first_name (r & Hin & He & Hu & Hs).
  unfold register_user, register_user_body.
  destruct (fetchone_filter_exists (active_for event_id user_id)
              (registrations db) r Hin) as [y Hy].
  - apply active_for_true. auto.
  - rewrite Hy. reflexivity.
Qed.

Lemma register_user_already_active_witness :
  register_user db_full 104 1 11 None None = Returned false db_full.
Proof.
  apply register_user_already_active.
  eexists. split; [right; left; reflexivity |].
  repeat split; reflexivity.
Defined.

(** *** Leaving without a registration *)

(** C7: when the user has no active registration for the event,
    [unregister_user], called with ids that fit SQLite's INTEGER, returns
    [False] and the database is exactly as it was. *)
Theorem unregister_user_not_registered :
  forall db event_id user_id,
    sqlite_integer event_id ->
    sqlite_integer user_id ->
    (forall r, In r (registrations db) -> r_event_id r = event_id ->
               r_user_id r = user_id -> r_status r <> active) ->
    unregister_user db event_id user_id = (false, db).
Proof.
  intros db event_id user_id _ _ Hnone. unfold unregister_user.
  replace (fetchone (filter (active_for event_id user_id) (registrations db)))
    with (@None registration); [reflexivity |].
  symmetry. apply fetchone_filter_None. intros x Hx.
  destruct (active_for event_id user_id x) eqn:E; [| reflexivity].
  apply active_for_true in E as (He & Hu & Hs).
  now destruct (Hnone x Hx He Hu).
Qed.

Lemma unregister_user_not_registered_witness :
  unregister_user db_left 1 10 = (false, db_left).
Proof.
  apply unregister_user_not_registered.
  - unfold sqlite_integer. lia.
  - unfold sqlite_integer. lia.
  - intros r [<- | []] _ _. simpl. discriminate.
Defined.

(** *** Joining an event that does not exist *)

(** C4, as the code has it: on a reachable database with no event of the
    given id, [register_user] does not return [False]; indexing the empty
    result of the [max_players] SELECT raises [TypeError], which the
    [except sqlite3.IntegrityError] clause does not catch. *)
Theorem register_user_unknown_event_raises :
  forall db now event_id user_id username first_name,
    reachable db ->
    get_event db event_id = None ->
    register_user db now event_id user_id username first_name
    = Raised TypeError db.
Proof.
  intros db now event_id user_id username first_name Hreach Hnone.
  destruct (reachable_schema db Hreach) as [_ _ Hfk].
  unfold get_event in Hnone.
  unfold register_user, register_user_body. rewrite Hnone.
  replace (fetchone (filter (active_for event_id user_id) (registrations db)))
    with (@None registration); [reflexivity |].
  symmetry. apply fetchone_filter_None. intros x Hx.
  destruct (active_for event_id user_id x) eqn:E; [| reflexivity].
  apply active_for_true in E as (He & _).
  destruct (Hfk x Hx) as (e & Hin & Hid).
  rewrite fetchone_filter_None in Hnone.
  specialize (Hnone e Hin). unfold has_id in Hnone.
  apply Z.eqb_neq in Hnone. congruence.
Qed.

Lemma register_user_unknown_event_raises_witness :
  register_user empty_database 100 1 7 (Some "ann"%string) (Some "Ann"%string)
  = Raised TypeError empty_database.
Proof.
  apply register_user_unknown_event_raises.
  - exact reach_init.
  - reflexivity.
Defined.

(** *** Cancelling an event *)

(** C5 fails on an event that is already cancelled: the UPDATE has no
    condition on the status, matches the row again, and [cancel_event]
    returns [True] a second time although nothing changes. *)
Lemma cancel_event_again_returns_true :
  (exists e, get_event db_cancelled 1 = Some e /\ e_status e = cancelled)
  /\ cancel_event db_cancelled 1 = (true, db_cancelled).
Proof.
  split; [eexists; split; reflexivity | reflexivity].
Qed.

(** C5, amended: [cancel_event], called with an id that fits SQLite's
    INTEGER, returns [True] exactly when an event with the given id is
    stored, whatever its status, so [False] on an unknown id; afterwards
    every event with that id is cancelled. *)
Theorem cancel_event_true_iff_stored :
  forall db event_id,
    sqlite_integer event_id ->
    (fst (cancel_event db event_id) = true <->
     exists e, In e (events db) /\ e_id e = event_id)
    /\ (get_event db event_id = None ->
        cancel_event db event_id = (false, db))
    /\ (forall e, In e (events (snd (cancel_event db event_id))) ->
                  e_id e = event_id -> e_status e = cancelled).
Proof.
  intros db event_id _. unfold cancel_event. cbn [fst snd events].
  repeat split.
  - intros H. apply Z.ltb_lt in H. apply rowcount_pos_iff in H.
    destruct H as (e & He & Hid). exists e. split; [exact He |].
    now apply has_id_true.
  - intros (e & He & Hid). apply Z.ltb_lt. apply rowcount_pos_iff.
    exists e. split; [exact He | now apply has_id_true].
  - intros Hnone. unfold get_event in Hnone.
    rewrite fetchone_filter_None in Hnone.
    rewrite rowcount_zero by exact Hnone.
    rewrite update_where_none by exact Hnone.
    destruct db; reflexivity.
  - intros e He Hid. unfold update_where in He.
    apply in_map_iff in He as (e0 & <- & He0).
    destruct (has_id event_id e0) eqn:E; [reflexivity |].
    apply Z.eqb_neq in E. contradiction.
Qed.

Lemma cancel_event_true_iff_stored_witness :
  cancel_event db_full 7 = (false, db_full)
  /\ fst (cancel_event db_cancelled 1) = true.
Proof.
  split.
  - apply (cancel_event_true_iff_stored db_full 7).
    + unfold sqlite_integer. lia.
    + reflexivity.
  - apply (cancel_event_true_iff_stored db_cancelled 1).
    + unfold sqlite_integer. lia.
    + eexists. split; [left; reflexivity | reflexivity].
Defined.

(** C8: [cancel_event] leaves table [registrations] as it is; in table
    [events] every row keeps all its columns but [status], and the rows
    of other events keep that too; the registrations of the event are
    returned by the two queries as before. *)
Theorem cancel_event_frame :
  forall db event_id,
    let db' := snd (cancel_event db event_id) in
    registrations db' = registrations db
    /\ Forall2 (fun e e' =>
                  e_id e' = e_id e /\ e_date e' = e_date e /\
                  e_time e' = e_time e /\
                  e_max_players e' = e_max_players e /\
                  e_description e' = e_description e /\
                  e_created_by e' = e_created_by e /\
                  e_created_at e' = e_created_at e /\
                  (e_id e <> event_id -> e' = e))
               (events db) (events db')
    /\ (forall ev, get_event_registrations db' ev
                   = get_event_registrations db ev)
    /\ (forall ev, get_players_for_teams db' ev = get_players_for_teams db ev).
Proof.
  intros db event_id. unfold cancel_event. cbn [snd events registrations].
  repeat split.
  apply Forall2_map_In. intros e _.
  destruct (has_id event_id e) eqn:E; repeat split.
  apply has_id_true in E. contradiction.
Qed.

(** *** Joining again after leaving *)

Lemma unregister_user_true_inv db event_id user_id db1 :
  unregister_user db event_id user_id = (true, db1) ->
  events db1 = events db
  /\ (exists r, In r (registrations db1) /\ key r = (event_id, user_id))
  /\ (forall r, In r (registrations db1) -> active_for event_id user_id r = false).
Proof.
  unfold unregister_user.
  destruct (fetchone (filter (active_for event_id user_id) (registrations db)))
    as [result|] eqn:Eres; [| discriminate].
  apply fetchone_filter_Some in Eres as [Hres1 Hres2].
  set (regs1 := update_where (active_for event_id user_id)
                  (fun r => set_r_status r cancelled) (registrations db)).
  assert (Hgone1 : forall r, In r regs1 -> active_for event_id user_id r = false).
  { intros r Hr. unfold regs1, update_where in Hr.
    apply in_map_iff in Hr as (x & <- & _).
    destruct (active_for event_id user_id x) eqn:E; [| exact E].
    unfold active_for. cbn. apply andb_false_r. }
  assert (Hkey1 : exists r, In r regs1 /\ key r = (event_id, user_id)).
  { exists (set_r_status result cancelled). split.
    - unfold regs1, update_where.
      apply in_map_iff. exists result. now rewrite Hres2.
    - apply active_for_true in Hres2 as (He & Hu & _).
      unfold key. cbn. congruence. }
  set (regs2 := match r_registration_type result with
                | main => _ | reserve => _ end).
  intros [= <-]. cbn [events registrations]. split; [reflexivity |].
  destruct (r_registration_type result); [| now split].
  destruct (fetchone _) as [next_user|]; [| now split].
  unfold regs2. split.
  - destruct Hkey1 as (r & Hr & Hk).
    exists (if active_for event_id (r_user_id next_user) r
            then set_r_type r main else r).
    split.
    + unfold update_where.
      apply (in_map (fun r => if active_for event_id (r_user_id next_user) r
                              then set_r_type r main else r)). exact Hr.
    + destruct (active_for _ _ r); exact Hk.
  - intros r Hr. unfold update_where in Hr.
    apply in_map_iff in Hr as (x & <- & Hx).
    specialize (Hgone1 x Hx). destruct (active_for _ (r_user_id next_user) x);
      exact Hgone1.
Qed.

(** C1, as the code has it: after a successful [unregister_user] the
    cancelled row still occupies the pair in UNIQUE(event_id, user_id), so
    the INSERT of a later [register_user] for the same pair raises
    [IntegrityError]; the call returns [False] and inserts nothing. *)
Theorem register_after_unregister_refused :
  forall db event_id user_id db1 now username first_name,
    unregister_user db event_id user_id = (true, db1) ->
    (exists e, In e (events db1) /\ e_id e = event_id) ->
    register_user db1 now event_id user_id username first_name
    = Returned false db1.
Proof.
  intros db event_id user_id db1 now username first_name Hun (e & He & Hid).
  apply unregister_user_true_inv in Hun as (_ & (r & Hr & Hk) & Hgone).
  unfold register_user, register_user_body.
  replace (fetchone (filter (active_for event_id user_id) (registrations db1)))
    with (@None registration)
    by (symmetry; now apply fetchone_filter_None).
  destruct (fetchone_filter_exists (has_id event_id) (events db1) e He)
    as [row Hrow]; [now apply has_id_true |].
  rewrite Hrow. unfold insert_registration.
  replace (existsb (same_key event_id user_id) (registrations db1)) with true;
    [reflexivity |].
  symmetry. apply existsb_exists. exists r. split; [exact Hr |].
  now apply same_key_true.
Qed.

Lemma register_after_unregister_refused_witness :
  register_user db_left 105 1 10 (Some "ann"%string) (Some "Ann"%string)
  = Returned false db_left.
Proof.
  apply (register_after_unregister_refused
           (db_after (register_user db_event 101 1 10 (Some "ann"%string)
                                    (Some "Ann"%string))) 1 10).
  - reflexivity.
  - eexists. split; [left; reflexivity | reflexivity].
Defined.

(** *** Capacity *)

(** C2: in every reachable database no event has more active main
    registrations than its [max_players], and [register_user],
    [unregister_user] and [cancel_event] each lead to a database where
    that holds again. *)
Theorem capacity_invariant :
  forall db,
    reachable db ->
    capacity_ok db
    /\ (forall now event_id user_id username first_name,
          capacity_ok (db_after (register_user db now event_id user_id
                                               username first_name)))
    /\ (forall event_id user_id,
          capacity_ok (snd (unregister_user db event_id user_id)))
    /\ (forall event_id, capacity_ok (snd (cancel_event db event_id))).
Proof.
  intros db Hreach.
  assert (Hok := reachable_schema db Hreach).
  assert (Hcap := reachable_capacity db Hreach).
  repeat split; intros.
  - exact Hcap.
  - now apply register_user_capacity.
  - now apply unregister_user_capacity.
  - now apply cancel_event_capacity.
Qed.

Lemma capacity_invariant_witness :
  reachable db_full
  /\ rowcount (active_of_type 1 main) (registrations db_full) = 2
  /\ capacity_ok db_full.
Proof.
  assert (H : reachable db_full).
  { unfold db_full, db_event.
    repeat apply reach_register. apply reach_create; [apply reach_init | lia]. }
  split; [exact H |]. split; [reflexivity |].
  exact (proj1 (capacity_invariant db_full H)).
Defined.

(** *** Joining a cancelled event *)

(** The row [register_user] inserts. *)
Lemma register_user_new_pair db now event_id user_id username first_name row :
  fetchone (filter (has_id event_id) (events db)) = Some row ->
  (forall r, In r (registrations db) -> key r <> (event_id, user_id)) ->
  register_user db now event_id user_id username first_name
  = Returned true
      {| events := events db;
         registrations := registrations db ++
           [ {| r_id := next_rowid (map r_id (registrations db));
                r_event_id := event_id; r_user_id := user_id;
                r_username := username; r_first_name := first_name;
                r_registration_type :=
                  if rowcount (active_of_type event_id main) (registrations db)
                     <? e_max_players row
                  then main else reserve;
                r_registered_at := now; r_status := active |} ] |}.
Proof.
  intros Hrow Hfresh. unfold register_user, register_user_body.
  replace (fetchone (filter (active_for event_id user_id) (registrations db)))
    with (@None registration).
  - rewrite Hrow. unfold insert_registration.
    replace (existsb (same_key event_id user_id) (registrations db))
      with false; [reflexivity |].
    symmetry. apply not_true_is_false. intros H.
    apply existsb_exists in H as (r & Hr & Hk).
    apply same_key_true in Hk. exact (Hfresh r Hr Hk).
  - symmetry. apply fetchone_filter_None. intros r Hr.
    destruct (active_for event_id user_id r) eqn:E; [| reflexivity].
    apply active_for_true in E as (He & Hu & _).
    exfalso. apply (Hfresh r Hr). unfold key. congruence.
Qed.

Lemma fetchone_has_id_view event_id (l1 l2 : list event) :
  map id_and_capacity l2 = map id_and_capacity l1 ->
  option_map id_and_capacity (fetchone (filter (has_id event_id) l2))
  = option_map id_and_capacity (fetchone (filter (has_id event_id) l1)).
Proof.
  revert l2. induction l1 as [|a l1 IH]; intros [|b l2]; cbn [map filter];
    try discriminate; [reflexivity |].
  intros H. injection H as Hid Hmax Hrest.
  replace (has_id event_id b) with (has_id event_id a)
    by (unfold has_id; now rewrite Hid).
  destruct (has_id event_id a); cbn [fetchone option_map].
  - unfold id_and_capacity. now rewrite Hid, Hmax.
  - now apply IH.
Qed.

(** C10: [register_user] does not look at the event's status.  For a
    cancelled event and a user with no registration row for it, with ids
    that fit SQLite's INTEGER and room for one more rowid, the call
    returns [True] and appends one active row, typed main when the event
    has fewer active main registrations than [max_players] and reserve
    otherwise; on any database with the same registrations and the same
    event ids and capacities, whatever the statuses of its events, the
    call returns [True] and appends the same row. *)
Theorem register_user_ignores_event_status :
  forall db now user_id username first_name ev,
    sqlite_integer (e_id ev) ->
    sqlite_integer user_id ->
    sqlite_integer (next_rowid (map r_id (registrations db))) ->
    NoDup (map e_id (events db)) ->
    In ev (events db) ->
    e_status ev = cancelled ->
    (forall r, In r (registrations db) -> key r <> (e_id ev, user_id)) ->
    let new_row :=
      {| r_id := next_rowid (map r_id (registrations db));
         r_event_id := e_id ev; r_user_id := user_id;
         r_username := username; r_first_name := first_name;
         r_registration_type :=
           if rowcount (active_of_type (e_id ev) main) (registrations db)
              <? e_max_players ev
           then main else reserve;
         r_registered_at := now; r_status := active |} in
    register_user db now (e_id ev) user_id username first_name
    = Returned true {| events := events db;
                       registrations := registrations db ++ [new_row] |}
    /\ forall db2,
         registrations db2 = registrations db ->
         map id_and_capacity (events db2) = map id_and_capacity (events db) ->
         register_user db2 now (e_id ev) user_id username first_name
         = Returned true {| events := events db2;
                            registrations := registrations db ++ [new_row] |}.
Proof.
  intros db now user_id username first_name ev _ _ _ Hpk Hin Hst Hfresh
         new_row.
  assert (Hrow : fetchone (filter (has_id (e_id ev)) (events db)) = Some ev)
    by (now apply get_event_In).
  split.
  - unfold new_row. now apply register_user_new_pair.
  - intros db2 Hregs Hview.
    assert (Hv := fetchone_has_id_view (e_id ev) _ _ Hview).
    rewrite Hrow in Hv.
    destruct (fetchone (filter (has_id (e_id ev)) (events db2)))
      as [row2|] eqn:Erow2; [| discriminate].
    injection Hv as _ Hmax.
    rewrite (register_user_new_pair db2 now (e_id ev) user_id username
               first_name row2 Erow2).
    + unfold new_row. now rewrite Hregs, Hmax.
    + now rewrite Hregs.
Qed.

Lemma register_user_ignores_event_status_witness :
  exists db',
    register_user db_cancelled 101 1 10 None (Some "Ann"%string)
    = Returned true db'
    /\ map r_registration_type (registrations db') = [main].
Proof.
  eexists. split.
  - refine (proj1 (register_user_ignores_event_status db_cancelled 101 10 None
                     (Some "Ann"%string)
                     (set_e_status
                        (mk_event 1 "25/12/2024" "19:00" 2 "Christmas game"
                                  1 100 active) cancelled)
                     _ _ _ _ _ _ _)).
    + unfold sqlite_integer. cbn. lia.
    + unfold sqlite_integer. lia.
    + unfold sqlite_integer. cbn. lia.
    + simpl. repeat constructor. simpl. tauto.
    + left. reflexivity.
    + reflexivity.
    + intros r [].
  - reflexivity.
Defined.

(** *** Promotion from the reserve list *)

Lemma by_registered_at_total a b :
  by_registered_at a b = true \/ by_registered_at b a = true.
Proof. unfold by_registered_at. rewrite !Z.leb_le. lia. Qed.

Lemma by_registered_at_trans a b c :
  by_registered_at a b = true -> by_registered_at b c = true ->
  by_registered_at a c = true.
Proof. unfold by_registered_at. rewrite !Z.leb_le. lia. Qed.

Lemma filter_map_same {A : Type} (p : A -> bool) (g : A -> A) l :
  (forall x, In x l -> g x = x \/ (p x = false /\ p (g x) = false)) ->
  filter p (map g l) = filter p l.
Proof.
  induction l as [|a l IH]; cbn [map filter]; intros H; [reflexivity |].
  rewrite IH by (intros x Hx; apply H; now right).
  destruct (H a (or_introl eq_refl)) as [-> | [-> ->]]; reflexivity.
Qed.

(** With (event_id, user_id) unique, the WHERE clause on the pair of a
    stored active row selects that row only. *)
Lemma active_for_only l r x :
  NoDup (map key l) -> In r l -> In x l -> r_status r = active ->
  (active_for (r_event_id r) (r_user_id r) x = true <-> x = r).
Proof.
  intros Hnd Hr Hx Hact. split.
  - intros H. apply active_for_true in H as (He & Hu & _).
    eapply key_inj; eauto. unfold key. congruence.
  - intros ->. now apply active_for_true.
Qed.

(** What [unregister_user] computes when a main player leaves. *)
Lemma unregister_user_main_eq db r :
  NoDup (map key (registrations db)) ->
  In r (registrations db) -> r_status r = active ->
  r_registration_type r = main ->
  let regs1 := update_where (active_for (r_event_id r) (r_user_id r))
                 (fun x => set_r_status x cancelled) (registrations db) in
  unregister_user db (r_event_id r) (r_user_id r)
  = (true,
     {| events := events db;
        registrations :=
          match fetchone (order_by by_registered_at
                   (filter (active_of_type (r_event_id r) reserve)
                           (registrations db))) with
          | Some next_user =>
            update_where (active_for (r_event_id r) (r_user_id next_user))
                         (fun x => set_r_type x main) regs1
          | None => regs1
          end |}).
Proof.
  intros Hnd Hin Hact Htype regs1. unfold unregister_user.
  rewrite fetchone_active_for by assumption. rewrite Htype.
  fold regs1.
  replace (filter (active_of_type (r_event_id r) reserve) regs1)
    with (filter (active_of_type (r_event_id r) reserve) (registrations db));
    [reflexivity |].
  symmetry. unfold regs1, update_where. apply filter_map_same.
  intros x Hx.
  destruct (active_for (r_event_id r) (r_user_id r) x) eqn:E; [| now left].
  right. apply (active_for_only _ r x Hnd Hin Hx Hact) in E. subst x.
  unfold active_of_type. cbn. rewrite Htype. cbn.
  now rewrite !andb_false_r.
Qed.

(** C3: when a user with an active main registration leaves,
    [unregister_user] returns [True] and marks that row cancelled.  If the
    event has no active reserve row, no other row changes; otherwise
    exactly one more row changes: an active reserve row of the event whose
    [registered_at] is no later than that of any other, and its type
    becomes main.  No other call changes the type of a stored row:
    [register_user] only appends, [create_event] and [cancel_event] leave
    the table alone, and [unregister_user] for a user without an active
    main registration keeps every type. *)
Theorem unregister_main_promotes_earliest_reserve :
  forall db r,
    schema_ok db ->
    In r (registrations db) ->
    r_status r = active ->
    r_registration_type r = main ->
    (exists db',
        unregister_user db (r_event_id r) (r_user_id r) = (true, db')
        /\ events db' = events db
        /\ ((forall q, In q (registrations db) ->
                       active_of_type (r_event_id r) reserve q = false) ->
            Forall2 (leave_and_promote r None)
                    (registrations db) (registrations db'))
        /\ ((exists q, In q (registrations db) /\
                       active_of_type (r_event_id r) reserve q = true) ->
            exists p,
              In p (registrations db)
              /\ active_of_type (r_event_id r) reserve p = true
              /\ (forall q, In q (registrations db) ->
                            active_of_type (r_event_id r) reserve q = true ->
                            r_registered_at p <= r_registered_at q)
              /\ Forall2 (leave_and_promote r (Some p))
                         (registrations db) (registrations db')))
    /\ (forall now event_id user_id username first_name,
          exists inserted,
            registrations (db_after (register_user db now event_id user_id
                                                   username first_name))
            = registrations db ++ inserted)
    /\ (forall event_id,
          registrations (snd (cancel_event db event_id)) = registrations db)
    /\ (forall now date time max_players created_by description,
          registrations (snd (create_event db now date time max_players
                                           created_by description))
          = registrations db)
    /\ (forall event_id user_id,
          (forall x, In x (registrations db) ->
                     active_for event_id user_id x = true ->
                     r_registration_type x = reserve) ->
          map r_registration_type
              (registrations (snd (unregister_user db event_id user_id)))
          = map r_registration_type (registrations db)).
Proof.
  intros db r [_ Hnd _] Hin Hact Htype. split; [| repeat split].
  - (* the main player leaves *)
    eexists. split; [now apply unregister_user_main_eq |].
    cbn [events registrations]. split; [reflexivity |].
    set (regs1 := update_where _ _ (registrations db)).
    assert (Hself : active_for (r_event_id r) (r_user_id r) r = true)
      by (now apply active_for_true).
    destruct (fetchone _) as [next_user|] eqn:Enext.
    + apply (fetchone_order_by_least by_registered_at by_registered_at_total
               by_registered_at_trans) in Enext as [Hnin Hleast].
      apply filter_In in Hnin as [Hnin Hnres].
      split.
      * intros Hnone. rewrite (Hnone next_user Hnin) in Hnres. discriminate.
      * intros _. exists next_user. split; [exact Hnin |].
        split; [exact Hnres |]. split.
        { intros q Hq Hqres. apply Z.leb_le. apply Hleast.
          apply filter_In. now split. }
        unfold regs1, update_where. rewrite map_map.
        apply Forall2_map_In. intros x Hx. unfold leave_and_promote.
        apply active_of_type_true in Hnres as (Hne & Hnt & Hns).
        destruct (active_for (r_event_id r) (r_user_id r) x) eqn:E.
        { left. apply (active_for_only _ r x Hnd Hin Hx Hact) in E.
          subst x. split; [reflexivity |].
          unfold active_for. cbn. now rewrite andb_false_r. }
        right.
        assert (Hxr : x <> r) by (intros ->; congruence).
        rewrite <- Hne.
        destruct (active_for (r_event_id next_user) (r_user_id next_user) x)
          eqn:E2.
        { left. apply (active_for_only _ next_user x Hnd Hnin Hx Hns) in E2.
          subst x. now split. }
        right. split; [exact Hxr |]. split; [| reflexivity].
        intros [= ->].
        assert (active_for (r_event_id next_user) (r_user_id next_user)
                           next_user = true) by (now apply active_for_true).
        congruence.
    + apply fetchone_order_by_None in Enext.
      split.
      * intros _. unfold regs1, update_where.
        apply Forall2_map_In. intros x Hx. unfold leave_and_promote.
        destruct (active_for (r_event_id r) (r_user_id r) x) eqn:E.
        { left. apply (active_for_only _ r x Hnd Hin Hx Hact) in E.
          now subst x. }
        right. right.
        split; [intros ->; congruence | split; [discriminate | reflexivity]].
      * intros (q & Hq & Hqres).
        assert (Hqin : In q (filter (active_of_type (r_event_id r) reserve)
                                    (registrations db)))
          by (apply filter_In; now split).
        rewrite Enext in Hqin. contradiction.
  - (* register_user *)
    intros now event_id user_id username first_name.
    unfold register_user, register_user_body, insert_registration.
    destruct (fetchone (filter (active_for _ _) _));
      [exists []; cbn; now rewrite app_nil_r |].
    destruct (fetchone (filter (has_id _) _));
      [| exists []; cbn; now rewrite app_nil_r].
    destruct (existsb _ _); [exists []; cbn; now rewrite app_nil_r |].
    eexists. reflexivity.
  - (* unregister_user of a user who is not on the main list *)
    intros event_id user_id Hres. unfold unregister_user.
    destruct (fetchone (filter (active_for event_id user_id) (registrations db)))
      as [result|] eqn:Eres; [| reflexivity].
    apply fetchone_filter_Some in Eres as [Hres1 Hres2].
    rewrite (Hres result Hres1 Hres2). cbn [snd registrations].
    unfold update_where. rewrite map_map. apply map_ext.
    intros x. destruct (active_for event_id user_id x); reflexivity.
Qed.

Lemma unregister_main_promotes_earliest_reserve_witness :
  exists db',
    unregister_user db_full 1 10 = (true, db')
    /\ events db' = events db_full
    /\ map (fun x => (r_user_id x, r_registration_type x, r_status x))
           (registrations db')
       = [(10, main, cancelled); (11, main, active); (12, main, active)].
Proof.
  assert (Hok : schema_ok db_full).
  { apply reachable_schema. unfold db_full, db_event.
    repeat apply reach_register. apply reach_create; [apply reach_init | lia]. }
  destruct (unregister_main_promotes_earliest_reserve db_full
              (mk_registration 1 1 10 (Some "ann"%string) (Some "Ann"%string)
                               main 101 active)
              Hok (or_introl eq_refl) eq_refl eq_refl)
    as [(db' & Heq & Hev & _) _].
  exists db'. split; [exact Heq |]. split; [exact Hev |].
  cbn [r_event_id r_user_id] in Heq.
  assert (Hdb : db' = snd (unregister_user db_full 1 10))
    by (now rewrite Heq).
  rewrite Hdb. reflexivity.
Defined.

(** *** The players of an event *)

Example str_examples :
  str 0 = "0"%string /\ str 42 = "42"%string /\ str (-7) = "-7"%string.
Proof. repeat split; reflexivity. Qed.

Lemma StronglySorted_by_registered_at rows :
  StronglySorted (fun a b => by_registered_at a b = true) rows ->
  StronglySorted (fun a b => r_registered_at a <= r_registered_at b) rows.
Proof.
  induction 1 as [|a l Hs IH Hall]; constructor; [exact IH |].
  rewrite Forall_forall in *. intros x Hx.
  apply Z.leb_le. now apply Hall.
Qed.

Lemma or_else_truthy (a : option string) b s :
  a = Some s -> s <> EmptyString -> or_else a b = s.
Proof. intros -> Hs. destruct s; [contradiction | reflexivity]. Qed.

Lemma or_else_falsy (a : option string) b : falsy a -> or_else a b = b.
Proof. intros [-> | ->]; reflexivity. Qed.

(** C9 fails when a stored [first_name] is the empty string: it is not
    absent, yet the display name is the next value in line. *)
Lemma display_name_skips_empty_first_name :
  ~ (forall p, In p (get_players_for_teams db_empty_first_name 1) ->
               forall s, p_first_name p = Some s -> p_display_name p = s).
Proof.
  intros H.
  specialize (H _ (or_introl eq_refl) EmptyString eq_refl).
  discriminate H.
Qed.

(** C9, amended: [get_players_for_teams] returns one entry for each active
    main registration of the event and no other, in ascending order of
    [registered_at]; an entry carries the row's user id, username and
    first name, and its display name is the first name if that is neither
    absent nor empty, otherwise the username if that is neither absent
    nor empty, otherwise the user id written in decimal. *)
Theorem get_players_for_teams_spec :
  forall db event_id,
    exists rows,
      Permutation rows
        (filter (active_of_type event_id main) (registrations db))
      /\ StronglySorted
           (fun a b => r_registered_at a <= r_registered_at b) rows
      /\ Forall2
           (fun r p =>
              p_user_id p = r_user_id r
              /\ p_username p = r_username r
              /\ p_first_name p = r_first_name r
              /\ (forall s, r_first_name r = Some s -> s <> EmptyString ->
                            p_display_name p = s)
              /\ (falsy (r_first_name r) ->
                  forall s, r_username r = Some s -> s <> EmptyString ->
                            p_display_name p = s)
              /\ (falsy (r_first_name r) -> falsy (r_username r) ->
                  p_display_name p = str (r_user_id r)))
           rows (get_players_for_teams db event_id).
Proof.
  intros db event_id.
  exists (order_by by_registered_at
            (filter (active_of_type event_id main) (registrations db))).
  split; [apply order_by_perm |]. split.
  - apply StronglySorted_by_registered_at.
    apply order_by_strongly_sorted;
      [apply by_registered_at_total | apply by_registered_at_trans].
  - unfold get_players_for_teams. apply Forall2_map_In.
    intros r _. cbn [player_of p_user_id p_username p_first_name p_display_name].
    repeat split.
    + intros s Hs Hne. now apply or_else_truthy.
    + intros Hf s Hs Hne. rewrite (or_else_falsy _ _ Hf).
      now apply or_else_truthy.
    + intros Hf Hu. now rewrite (or_else_falsy _ _ Hf), (or_else_falsy _ _ Hu).
Qed.

(** ** Further properties of the store *)

(** *** Events: creation, lookup, listing *)

Lemma get_event_None db event_id :
  get_event db event_id = None <->
  (forall e, In e (events db) -> e_id e <> event_id).
Proof.
  unfold get_event. rewrite fetchone_filter_None. split; intros H e He.
  - specialize (H e He). unfold has_id in H. now apply Z.eqb_neq.
  - apply Z.eqb_neq. now apply H.
Qed.

Lemma fetchone_app_l {A : Type} (l1 l2 : list A) x :
  fetchone l1 = Some x -> fetchone (l1 ++ l2) = Some x.
Proof. destruct l1; simpl; [discriminate | auto]. Qed.

Lemma filter_nil_iff {A : Type} (f : A -> bool) l :
  filter f l = [] <-> (forall x, In x l -> f x = false).
Proof.
  rewrite <- fetchone_filter_None.
  destruct (filter f l); simpl; split; congruence.
Qed.

Lemma next_rowid_pos ids : 0 < next_rowid ids.
Proof.
  unfold next_rowid.
  enough (0 <= fold_right Z.max 0 ids) by lia.
  induction ids as [|a ids IH]; cbn [fold_right]; lia.
Qed.

(** X1: [create_event], called with numbers that fit SQLite's INTEGER
    while there is room for one more rowid, returns an id greater than
    every stored id, and a lookup of that id afterwards gives the event
    created, with the values passed and status active. *)
Theorem create_event_then_get_event :
  forall db now date time max_players created_by description,
    sqlite_integer max_players ->
    sqlite_integer created_by ->
    sqlite_integer (next_rowid (map e_id (events db))) ->
    let id := fst (create_event db now date time max_players created_by
                                description) in
    let db' := snd (create_event db now date time max_players created_by
                                 description) in
    0 < id
    /\ (forall e, In e (events db) -> e_id e < id)
    /\ get_event db' id
       = Some {| e_id := id; e_date := date; e_time := time;
                 e_max_players := max_players; e_description := description;
                 e_created_by := created_by; e_created_at := now;
                 e_status := active |}.
Proof.
  intros db now date time max_players created_by description _ _ _.
  cbn [create_event fst snd].
  assert (Hfresh : forall e, In e (events db) ->
                     e_id e < next_rowid (map e_id (events db))).
  { intros e He. apply next_rowid_fresh. now apply in_map. }
  split; [| split; [exact Hfresh |]].
  - apply next_rowid_pos.
  - unfold get_event. cbn [events]. rewrite filter_app.
    replace (filter (has_id (next_rowid (map e_id (events db)))) (events db))
      with (@nil event).
    + cbn [app filter]. unfold has_id at 1. cbn [e_id].
      now rewrite Z.eqb_refl.
    + symmetry. apply filter_nil_iff. intros e He.
      apply Z.eqb_neq. specialize (Hfresh e He). lia.
Qed.

Lemma create_event_then_get_event_witness :
  get_event
    (snd (create_event db_event 110 "01/02/2025"%string "18:30"%string 10 1
                       ""%string)) 2
  = Some (mk_event 2 "01/02/2025" "18:30" 10 "" 1 110 active).
Proof.
  refine (proj2 (proj2 (create_event_then_get_event db_event 110
                          "01/02/2025"%string "18:30"%string 10 1 ""%string
                          _ _ _))); unfold sqlite_integer; cbn; lia.
Defined.

(** X2: [create_event] disturbs nothing stored: every event found before
    is found unchanged afterwards, and the registrations and what the
    registration queries return are the same. *)
Theorem create_event_keeps_stored :
  forall db now date time max_players created_by description event_id e,
    get_event db event_id = Some e ->
    let db' := snd (create_event db now date time max_players created_by
                                 description) in
    get_event db' event_id = Some e
    /\ registrations db' = registrations db
    /\ get_event_registrations db' event_id
       = get_event_registrations db event_id
    /\ get_players_for_teams db' event_id = get_players_for_teams db event_id.
Proof.
  intros db now date time max_players created_by description event_id e Hget.
  cbn [create_event snd]. repeat split.
  unfold get_event in *. cbn [events]. rewrite filter_app.
  now apply fetchone_app_l.
Qed.

Lemma create_event_keeps_stored_witness :
  get_event
    (snd (create_event db_full 110 "01/02/2025"%string "18:30"%string 10 1
                       ""%string)) 1
  = get_event db_full 1.
Proof.
  exact (proj1 (create_event_keeps_stored db_full 110 "01/02/2025"%string
                  "18:30"%string 10 1 ""%string 1 _ eq_refl)).
Defined.

Lemma fetchone_map {A B : Type} (g : A -> B) l :
  fetchone (map g l) = option_map g (fetchone l).
Proof. destruct l; reflexivity. Qed.

Lemma filter_map_comm {A : Type} (f : A -> bool) (g : A -> A) l :
  (forall x, f (g x) = f x) -> filter f (map g l) = map g (filter f l).
Proof.
  intros H. induction l as [|a l IH]; cbn [map filter]; [reflexivity |].
  rewrite H, IH. destruct (f a); reflexivity.
Qed.

(** X3: a lookup after [cancel_event] still finds the event, cancelled
    events included: the cancelled id gives the row it gave before with
    status cancelled, every other id gives exactly what it gave before. *)
Theorem cancel_event_then_get_event :
  forall db event_id other,
    get_event (snd (cancel_event db event_id)) other
    = if other =? event_id
      then option_map (fun e => set_e_status e cancelled)
                      (get_event db other)
      else get_event db other.
Proof.
  intros db event_id other. unfold get_event, cancel_event.
  cbn [snd events]. unfold update_where.
  rewrite filter_map_comm
    by (intros x; unfold has_id; destruct (e_id x =? event_id); reflexivity).
  rewrite fetchone_map.
  destruct (fetchone (filter (has_id other) (events db))) as [e|] eqn:E;
    [| now destruct (other =? event_id)].
  apply fetchone_filter_Some in E as [_ E]. apply has_id_true in E.
  cbn [option_map]. unfold has_id. rewrite E.
  destruct (other =? event_id); reflexivity.
Qed.

(** The byte order of strings is a total preorder. *)
Lemma string_compare_refl s : String.compare s s = Eq.
Proof.
  induction s as [|a s IH]; simpl; [reflexivity |].
  unfold Ascii.compare. now rewrite N.compare_refl.
Qed.

Lemma string_compare_lt_trans s1 s2 s3 :
  String.compare s1 s2 = Lt -> String.compare s2 s3 = Lt ->
  String.compare s1 s3 = Lt.
Proof.
  revert s2 s3.
  induction s1 as [|a s1 IH]; intros [|b s2] [|c s3]; simpl;
    try discriminate; auto.
  destruct (Ascii.compare a b) eqn:E1; try discriminate;
    destruct (Ascii.compare b c) eqn:E2; try discriminate.
  - apply Ascii.compare_eq_iff in E1, E2. subst.
    unfold Ascii.compare. rewrite N.compare_refl. apply IH.
  - apply Ascii.compare_eq_iff in E1. subst. now rewrite E2.
  - apply Ascii.compare_eq_iff in E2. subst. now rewrite E1.
  - unfold Ascii.compare in *. rewrite N.compare_lt_iff in E1, E2.
    intros _ _.
    replace (N_of_ascii a ?= N_of_ascii c)%N with Lt; [reflexivity |].
    symmetry. apply N.compare_lt_iff. lia.
Qed.

Lemma string_leb_trans s1 s2 s3 :
  String.leb s1 s2 = true -> String.leb s2 s3 = true ->
  String.leb s1 s3 = true.
Proof.
  unfold String.leb.
  destruct (String.compare s1 s2) eqn:E1; try discriminate;
    destruct (String.compare s2 s3) eqn:E2; try discriminate; intros _ _.
  - apply String.compare_eq_iff in E1. subst. now rewrite E2.
  - apply String.compare_eq_iff in E1. subst. now rewrite E2.
  - apply String.compare_eq_iff in E2. subst. now rewrite E1.
  - now rewrite (string_compare_lt_trans _ _ _ E1 E2).
Qed.

Lemma by_date_time_total a b :
  by_date_time a b = true \/ by_date_time b a = true.
Proof.
  unfold by_date_time. rewrite (String.compare_antisym (e_date b) (e_date a)).
  destruct (String.compare (e_date a) (e_date b)); cbn; auto.
  apply String.leb_total.
Qed.

Lemma by_date_time_trans a b c :
  by_date_time a b = true -> by_date_time b c = true ->
  by_date_time a c = true.
Proof.
  unfold by_date_time.
  destruct (String.compare (e_date a) (e_date b)) eqn:E1; try discriminate;
    destruct (String.compare (e_date b) (e_date c)) eqn:E2; try discriminate.
  - apply String.compare_eq_iff in E1. rewrite E1, E2.
    apply string_leb_trans.
  - apply String.compare_eq_iff in E1. rewrite E1, E2. reflexivity.
  - apply String.compare_eq_iff in E2. rewrite <- E2, E1. reflexivity.
  - now rewrite (string_compare_lt_trans _ _ _ E1 E2).
Qed.

(** What "no later than" means for [ORDER BY date, time]. *)
Lemma by_date_time_true a b :
  by_date_time a b = true <->
  String.compare (e_date a) (e_date b) = Lt
  \/ (e_date a = e_date b /\ String.leb (e_time a) (e_time b) = true).
Proof.
  unfold by_date_time.
  destruct (String.compare (e_date a) (e_date b)) eqn:E.
  - apply String.compare_eq_iff in E. split; [auto |].
    intros [H | [_ H]]; [discriminate | exact H].
  - split; auto.
  - split; [discriminate |]. intros [H | [H _]]; [discriminate |].
    rewrite H, string_compare_refl in E. discriminate.
Qed.

Lemma get_active_events_In db row :
  In row (get_active_events db) <->
  exists e, In e (events db) /\ e_status e = active /\ event_columns e = row.
Proof.
  unfold get_active_events. rewrite in_map_iff. split.
  - intros (e & Hrow & He). apply order_by_In in He.
    apply filter_In in He as [He Hact]. apply status_eqb_eq in Hact.
    now exists e.
  - intros (e & He & Hact & Hrow). exists e. split; [exact Hrow |].
    apply order_by_In. apply filter_In. split; [exact He |].
    now apply status_eqb_eq.
Qed.

(** X4: [get_active_events] returns the selected columns of exactly the
    events with status active, each once, ordered by date and then time,
    both compared as byte strings. *)
Theorem get_active_events_spec :
  forall db,
    exists rows,
      Permutation rows
        (filter (fun e => status_eqb (e_status e) active) (events db))
      /\ StronglySorted
           (fun a b =>
              String.compare (e_date a) (e_date b) = Lt
              \/ (e_date a = e_date b
                  /\ String.leb (e_time a) (e_time b) = true))
           rows
      /\ get_active_events db = map event_columns rows.
Proof.
  intros db.
  exists (order_by by_date_time
            (filter (fun e => status_eqb (e_status e) active) (events db))).
  split; [apply order_by_perm |]. split; [| reflexivity].
  assert (Hs := order_by_strongly_sorted by_date_time by_date_time_total
                  by_date_time_trans
                  (filter (fun e => status_eqb (e_status e) active)
                          (events db))).
  induction Hs as [|a l Hs IH Hall]; constructor; [exact IH |].
  rewrite Forall_forall in *. intros x Hx.
  apply by_date_time_true. now apply Hall.
Qed.

(** X5: after [cancel_event] the listing of active events has lost the
    rows with the cancelled id and nothing else. *)
Theorem cancel_event_hides_event :
  forall db event_id id date time max_players description created_by
         created_at,
    In (id, date, time, max_players, description, created_by, created_at)
       (get_active_events (snd (cancel_event db event_id)))
    <-> In (id, date, time, max_players, description, created_by, created_at)
           (get_active_events db)
        /\ id <> event_id.
Proof.
  intros db event_id id date time max_players description created_by
         created_at.
  rewrite !get_active_events_In. unfold cancel_event. cbn [snd events].
  unfold update_where. split.
  - intros (e' & He' & Hact & Hrow).
    apply in_map_iff in He' as (e & <- & He).
    destruct (has_id event_id e) eqn:E; [discriminate Hact |].
    split; [now exists e |].
    apply Z.eqb_neq in E. unfold event_columns in Hrow. congruence.
  - intros [(e & He & Hact & Hrow) Hne].
    exists e. split; [| now split].
    apply in_map_iff. exists e. split; [| exact He].
    replace (has_id event_id e) with false; [reflexivity |].
    symmetry. apply Z.eqb_neq. unfold event_columns in Hrow. congruence.
Qed.

(** *** Row ids *)

Lemma fold_max_app_one l x :
  0 <= x -> fold_right Z.max 0 (l ++ [x]) = Z.max (fold_right Z.max 0 l) x.
Proof.
  intros Hx. induction l as [|a l IH]; cbn [app fold_right]; [lia |].
  rewrite IH. lia.
Qed.

Lemma next_rowid_seq n :
  next_rowid (map Z.of_nat (seq 1 n)) = Z.of_nat (S n).
Proof.
  unfold next_rowid.
  enough (fold_right Z.max 0 (map Z.of_nat (seq 1 n)) = Z.of_nat n) by lia.
  induction n as [|n IH]; [reflexivity |].
  rewrite seq_S, map_app. cbn [map]. rewrite fold_max_app_one by lia.
  rewrite IH. lia.
Qed.

Lemma update_where_map {A B : Type} (col : A -> B) f (set : A -> A) l :
  (forall x, col (set x) = col x) ->
  map col (update_where f set l) = map col l.
Proof.
  intros H. unfold update_where. rewrite map_map. apply map_ext.
  intros x. destruct (f x); auto.
Qed.

Lemma consecutive_ids_snoc ids :
  consecutive_ids ids -> consecutive_ids (ids ++ [next_rowid ids]).
Proof.
  unfold consecutive_ids. intros H.
  rewrite length_app. cbn [length]. rewrite Nat.add_1_r, seq_S, map_app.
  cbn [map]. rewrite <- H. f_equal. f_equal.
  rewrite H at 1. rewrite next_rowid_seq. f_equal.
Qed.

(** X6: in every reachable store the event ids are 1, 2, ..., n in
    creation order and the registration ids are 1, 2, ..., m in insertion
    order: ids grow by one and none is reused or skipped, also after
    calls that failed. *)
Theorem reachable_ids_consecutive :
  forall db,
    reachable db ->
    consecutive_ids (map e_id (events db))
    /\ consecutive_ids (map r_id (registrations db)).
Proof.
  induction 1 as [| db now date time mp cb descr Hr [IHe IHr] Hmp
                  | db now e u un fn Hr [IHe IHr]
                  | db e u Hr [IHe IHr] | db e Hr [IHe IHr]].
  - split; reflexivity.
  - cbn [create_event snd events registrations]. split; [| exact IHr].
    rewrite map_app. cbn [map e_id]. now apply consecutive_ids_snoc.
  - unfold register_user, register_user_body, insert_registration.
    destruct (fetchone (filter (active_for _ _) _)); [now split |].
    destruct (fetchone (filter (has_id _) _)); [| now split].
    destruct (existsb _ _); [now split |].
    cbn [db_after events registrations]. split; [exact IHe |].
    rewrite map_app. cbn [map r_id]. now apply consecutive_ids_snoc.
  - unfold unregister_user.
    destruct (fetchone (filter (active_for _ _) _)) as [result|];
      [| now split].
    cbn [snd events registrations]. split; [exact IHe |].
    destruct (r_registration_type result).
    + destruct (fetchone _);
        rewrite ?update_where_map by reflexivity; exact IHr.
    + rewrite update_where_map by reflexivity. exact IHr.
  - unfold cancel_event. cbn [snd events registrations].
    split; [| exact IHr].
    rewrite update_where_map by reflexivity. exact IHe.
Qed.

Lemma reachable_ids_consecutive_witness :
  map e_id (events db_three_events) = [1; 2; 3]
  /\ map r_id (registrations db_full) = [1; 2; 3].
Proof.
  assert (H3 : reachable db_three_events).
  { unfold db_three_events, db_event. apply reach_cancel.
    repeat (apply reach_create; [| lia]). apply reach_init. }
  assert (Hf : reachable db_full).
  { unfold db_full, db_event.
    repeat apply reach_register. apply reach_create; [apply reach_init | lia]. }
  split.
  - exact (proj1 (reachable_ids_consecutive db_three_events H3)).
  - exact (proj2 (reachable_ids_consecutive db_full Hf)).
Defined.

(** *** The lists of an event *)

Lemma insert_by_type_main x M R :
  r_registration_type x = main ->
  Forall (fun r => r_registration_type r = main) M ->
  Forall (fun r => r_registration_type r = reserve) R ->
  insert_by by_type_then_registered_at x (M ++ R)
  = insert_by by_registered_at x M ++ R.
Proof.
  intros Hx HM HR. induction HM as [|a M Ha HM IH]; cbn [app insert_by].
  - destruct HR as [|y R Hy HR]; [reflexivity |]. cbn [insert_by].
    unfold by_type_then_registered_at. now rewrite Hx, Hy.
  - unfold by_type_then_registered_at at 1. rewrite Hx, Ha.
    fold (by_registered_at x a).
    destruct (by_registered_at x a); [reflexivity |].
    cbn [app]. now rewrite IH.
Qed.

Lemma insert_by_type_reserve x M R :
  r_registration_type x = reserve ->
  Forall (fun r => r_registration_type r = main) M ->
  Forall (fun r => r_registration_type r = reserve) R ->
  insert_by by_type_then_registered_at x (M ++ R)
  = M ++ insert_by by_registered_at x R.
Proof.
  intros Hx HM HR. induction HM as [|a M Ha HM IH]; cbn [app insert_by].
  - induction HR as [|y R Hy HR IHR]; [reflexivity |]. cbn [insert_by].
    unfold by_type_then_registered_at at 1. rewrite Hx, Hy.
    fold (by_registered_at x y).
    destruct (by_registered_at x y); [reflexivity |]. now rewrite IHR.
  - unfold by_type_then_registered_at at 1. rewrite Hx, Ha.
    now rewrite IH.
Qed.

Lemma order_by_type_split l :
  order_by by_type_then_registered_at l
  = order_by by_registered_at
      (filter (fun r => reg_type_eqb (r_registration_type r) main) l)
    ++ order_by by_registered_at
         (filter (fun r => reg_type_eqb (r_registration_type r) reserve) l).
Proof.
  induction l as [|x l IH]; [reflexivity |].
  cbn [order_by filter]. rewrite IH.
  assert (HM : Forall (fun r => r_registration_type r = main)
                 (order_by by_registered_at
                    (filter (fun r => reg_type_eqb (r_registration_type r) main)
                            l))).
  { apply Forall_forall. intros r Hr. apply order_by_In in Hr.
    apply filter_In in Hr as [_ Hr]. now apply reg_type_eqb_eq. }
  assert (HR : Forall (fun r => r_registration_type r = reserve)
                 (order_by by_registered_at
                    (filter (fun r => reg_type_eqb (r_registration_type r)
                                                   reserve) l))).
  { apply Forall_forall. intros r Hr. apply order_by_In in Hr.
    apply filter_In in Hr as [_ Hr]. now apply reg_type_eqb_eq. }
  destruct (r_registration_type x) eqn:Ex; cbn [reg_type_eqb order_by].
  - now apply insert_by_type_main.
  - now apply insert_by_type_reserve.
Qed.

Lemma get_event_registrations_fold rows acc :
  fold_left
    (fun result reg =>
       let info := {| ui_user_id := r_user_id reg;
                      ui_username := r_username reg;
                      ui_first_name := r_first_name reg;
                      ui_registered_at := r_registered_at reg |} in
       match r_registration_type reg with
       | main => {| main_list := main_list result ++ [info];
                    reserve_list := reserve_list result |}
       | reserve => {| main_list := main_list result;
                       reserve_list := reserve_list result ++ [info] |}
       end)
    rows acc
  = {| main_list :=
         main_list acc ++
         map user_info_of
             (filter (fun r => reg_type_eqb (r_registration_type r) main) rows);
       reserve_list :=
         reserve_list acc ++
         map user_info_of
             (filter (fun r => reg_type_eqb (r_registration_type r) reserve)
                     rows) |}.
Proof.
  revert acc. induction rows as [|x rows IH]; intros acc; cbn [fold_left].
  - cbn. rewrite !app_nil_r. now destruct acc.
  - rewrite IH. cbn [filter].
    destruct (r_registration_type x); cbn [reg_type_eqb map main_list
                                           reserve_list];
      rewrite <- ?app_assoc; reflexivity.
Qed.

Lemma filter_all {A : Type} (f : A -> bool) l :
  (forall x, In x l -> f x = true) -> filter f l = l.
Proof.
  induction l as [|a l IH]; cbn [filter]; intros H; [reflexivity |].
  rewrite (H a (or_introl eq_refl)), IH; [reflexivity |].
  intros x Hx. apply H. now right.
Qed.

Lemma filter_filter {A : Type} (f g : A -> bool) l :
  filter f (filter g l) = filter (fun x => g x && f x) l.
Proof.
  induction l as [|a l IH]; cbn [filter]; [reflexivity |].
  destruct (g a); cbn [filter andb]; rewrite IH; reflexivity.
Qed.

(** What [get_event_registrations] returns, list by list. *)
Lemma get_event_registrations_eq db event_id :
  get_event_registrations db event_id
  = {| main_list :=
         map user_info_of
           (order_by by_registered_at
              (filter (active_of_type event_id main) (registrations db)));
       reserve_list :=
         map user_info_of
           (order_by by_registered_at
              (filter (active_of_type event_id reserve) (registrations db))) |}.
Proof.
  unfold get_event_registrations.
  rewrite get_event_registrations_fold. cbn [main_list reserve_list app].
  rewrite order_by_type_split, !filter_app.
  set (act := filter _ (registrations db)).
  assert (Hty : forall t,
            filter (fun r => reg_type_eqb (r_registration_type r) t) act
            = filter (active_of_type event_id t) (registrations db)).
  { intros t. unfold act. rewrite filter_filter. apply filter_ext.
    intros r. unfold active_of_type.
    destruct (r_event_id r =? event_id), (status_eqb (r_status r) active),
      (reg_type_eqb (r_registration_type r) t); reflexivity. }
  assert (Hin : forall t t',
            filter (fun r => reg_type_eqb (r_registration_type r) t')
              (order_by by_registered_at
                 (filter (fun r => reg_type_eqb (r_registration_type r) t) act))
            = if reg_type_eqb t t'
              then order_by by_registered_at
                     (filter (fun r => reg_type_eqb (r_registration_type r) t)
                             act)
              else []).
  { intros t t'. destruct (reg_type_eqb t t') eqn:E.
    - apply reg_type_eqb_eq in E. subst t'. apply filter_all.
      intros r Hr. apply order_by_In in Hr. now apply filter_In in Hr.
    - apply filter_nil_iff. intros r Hr. apply order_by_In in Hr.
      apply filter_In in Hr as [_ Hr]. apply reg_type_eqb_eq in Hr.
      now rewrite Hr. }
  rewrite !Hin. cbn [reg_type_eqb app]. rewrite app_nil_r, !Hty.
  reflexivity.
Qed.

Lemma StronglySorted_map {A B : Type} (R : B -> B -> Prop) (g : A -> B) l :
  StronglySorted (fun a b => R (g a) (g b)) l -> StronglySorted R (map g l).
Proof.
  induction 1 as [|a l Hs IH Hall]; cbn [map]; constructor; [exact IH |].
  rewrite Forall_forall in *. intros y Hy.
  apply in_map_iff in Hy as (x & <- & Hx). now apply Hall.
Qed.

Lemma order_by_registered_at_sorted rows :
  StronglySorted (fun a b => r_registered_at a <= r_registered_at b)
                 (order_by by_registered_at rows).
Proof.
  apply StronglySorted_by_registered_at.
  apply order_by_strongly_sorted;
    [apply by_registered_at_total | apply by_registered_at_trans].
Qed.

(** X7: [get_event_registrations] puts under 'main' one entry for each
    active main registration of the event and under 'reserve' one for each
    active reserve registration, and nothing else; each list is in
    ascending order of [registered_at]. *)
Theorem get_event_registrations_spec :
  forall db event_id,
    let result := get_event_registrations db event_id in
    (exists rows,
        Permutation rows
          (filter (active_of_type event_id main) (registrations db))
        /\ main_list result = map user_info_of rows)
    /\ (exists rows,
           Permutation rows
             (filter (active_of_type event_id reserve) (registrations db))
           /\ reserve_list result = map user_info_of rows)
    /\ StronglySorted (fun a b => ui_registered_at a <= ui_registered_at b)
                      (main_list result)
    /\ StronglySorted (fun a b => ui_registered_at a <= ui_registered_at b)
                      (reserve_list result).
Proof.
  intros db event_id result. unfold result.
  rewrite get_event_registrations_eq. cbn [main_list reserve_list].
  repeat split.
  - eexists. split; [apply order_by_perm | reflexivity].
  - eexists. split; [apply order_by_perm | reflexivity].
  - apply StronglySorted_map. apply order_by_registered_at_sorted.
  - apply StronglySorted_map. apply order_by_registered_at_sorted.
Qed.

(** X8: the main list of [get_event_registrations] and the list of
    [get_players_for_teams] hold the same players in the same order, and
    the name [format_event_message] prints for a main-list entry
    ([first_name or username or str(user_id)]) is the [display_name] of
    that player. *)
Theorem main_list_matches_players :
  forall db event_id,
    let infos := main_list (get_event_registrations db event_id) in
    let players := get_players_for_teams db event_id in
    map (fun i => (ui_user_id i, ui_username i, ui_first_name i)) infos
    = map (fun p => (p_user_id p, p_username p, p_first_name p)) players
    /\ map (fun i => or_else (ui_first_name i)
                       (or_else (ui_username i) (str (ui_user_id i)))) infos
       = map p_display_name players.
Proof.
  intros db event_id. cbv zeta.
  rewrite get_event_registrations_eq. unfold get_players_for_teams.
  cbn [main_list]. rewrite !map_map. split; reflexivity.
Qed.

Lemma reachable_example_full : reachable db_full.
Proof.
  unfold db_full, db_event.
  repeat apply reach_register. apply reach_create; [apply reach_init | lia].
Qed.

(** X9: in a reachable store the main list of an event and the list of
    players for its teams never hold more than [max_players] entries. *)
Theorem main_list_within_capacity :
  forall db e,
    reachable db ->
    In e (events db) ->
    Z.of_nat (length (main_list (get_event_registrations db (e_id e))))
    <= e_max_players e
    /\ Z.of_nat (length (get_players_for_teams db (e_id e)))
       <= e_max_players e.
Proof.
  intros db e Hreach He.
  assert (Hcap := reachable_capacity db Hreach e He). unfold rowcount in Hcap.
  rewrite get_event_registrations_eq. unfold get_players_for_teams.
  cbn [main_list]. rewrite !length_map.
  rewrite (Permutation_length (order_by_perm by_registered_at _)).
  split; exact Hcap.
Qed.

Lemma main_list_within_capacity_witness :
  Z.of_nat (length (main_list (get_event_registrations db_full 1))) <= 2.
Proof.
  exact (proj1 (main_list_within_capacity db_full
                  (mk_event 1 "25/12/2024" "19:00" 2 "Christmas game" 1 100
                            active)
                  reachable_example_full (or_introl eq_refl))).
Defined.

Lemma NoDup_of_keys (l : list registration) :
  NoDup (map key l) -> NoDup l.
Proof. apply NoDup_map_inv. Qed.

Lemma NoDup_user_ids_of_event (regs l : list registration) event_id :
  NoDup (map key regs) -> NoDup l ->
  (forall r, In r l -> In r regs /\ r_event_id r = event_id) ->
  NoDup (map r_user_id l).
Proof.
  intros Hk Hnd Hsub. induction Hnd as [|a l Hnotin Hnd IH]; cbn [map].
  - constructor.
  - constructor.
    + intros Hin. apply in_map_iff in Hin as (x & Hu & Hx).
      destruct (Hsub a (or_introl eq_refl)) as [Ha1 Ha2].
      destruct (Hsub x (or_intror Hx)) as [Hx1 Hx2].
      assert (x = a)
        by (eapply key_inj; eauto; unfold key; congruence).
      subst x. contradiction.
    + apply IH. intros r Hr. apply Hsub. now right.
Qed.

(** X10: in a reachable store no user appears twice in the lists of an
    event, neither within one list nor in both. *)
Theorem event_lists_no_duplicate_user :
  forall db event_id,
    reachable db ->
    let result := get_event_registrations db event_id in
    NoDup (map ui_user_id (main_list result ++ reserve_list result)).
Proof.
  intros db event_id Hreach result. unfold result.
  destruct (reachable_schema db Hreach) as [_ Hk _].
  rewrite get_event_registrations_eq. cbn [main_list reserve_list].
  rewrite <- map_app, map_map. cbn [user_info_of ui_user_id].
  apply (NoDup_user_ids_of_event (registrations db) _ event_id Hk).
  - eapply Permutation_NoDup.
    + symmetry. apply Permutation_app; apply order_by_perm.
    + apply NoDup_app.
      * apply NoDup_filter. now apply NoDup_of_keys.
      * apply NoDup_filter. now apply NoDup_of_keys.
      * intros r H1 H2. apply filter_In in H1 as [_ H1], H2 as [_ H2].
        apply active_of_type_true in H1 as (_ & H1 & _).
        apply active_of_type_true in H2 as (_ & H2 & _). congruence.
  - intros r Hr. apply in_app_or in Hr.
    destruct Hr as [Hr | Hr]; apply order_by_In in Hr;
      apply filter_In in Hr as [Hin Hr];
      apply active_of_type_true in Hr as (He & _); auto.
Qed.

Lemma event_lists_no_duplicate_user_witness :
  NoDup (map ui_user_id
           (main_list (get_event_registrations db_full 1)
            ++ reserve_list (get_event_registrations db_full 1))).
Proof.
  exact (event_lists_no_duplicate_user db_full 1 reachable_example_full).
Defined.

(** *** What a call to [register_user] can do *)

(** X11: a call to [register_user] with ids that fit SQLite's INTEGER,
    while there is room for one more rowid, ends in one of three ways.  It
    returns [True] having appended exactly one active row for the pair,
    with the names and the time given, and changed nothing else; then the
    event is stored and the pair had no row.  Or it returns [False] having
    changed nothing; then the pair has a row, active or cancelled.  Or it
    raises [TypeError] having changed nothing; then no event with the id
    is stored and the pair has no active row.  [IntegrityError] never
    leaves the method. *)
Theorem register_user_outcomes :
  forall db now event_id user_id username first_name,
    sqlite_integer event_id ->
    sqlite_integer user_id ->
    sqlite_integer (next_rowid (map r_id (registrations db))) ->
    match register_user db now event_id user_id username first_name with
    | Returned true db' =>
      (exists t,
          db' = {| events := events db;
                   registrations := registrations db ++
                     [ {| r_id := next_rowid (map r_id (registrations db));
                          r_event_id := event_id; r_user_id := user_id;
                          r_username := username; r_first_name := first_name;
                          r_registration_type := t;
                          r_registered_at := now; r_status := active |} ] |})
      /\ (forall r, In r (registrations db) ->
                    key r <> (event_id, user_id))
      /\ (exists e, get_event db event_id = Some e)
    | Returned false db' =>
      db' = db
      /\ (exists r, In r (registrations db) /\ key r = (event_id, user_id))
    | Raised e db' =>
      e = TypeError /\ db' = db /\ get_event db event_id = None
      /\ (forall r, In r (registrations db) ->
                    key r = (event_id, user_id) -> r_status r <> active)
    end.
Proof.
  intros db now event_id user_id username first_name _ _ _.
  unfold register_user, register_user_body, insert_registration, get_event.
  destruct (fetchone (filter (active_for _ _) _)) as [found|] eqn:Eact.
  - split; [reflexivity |].
    apply fetchone_filter_Some in Eact as [Hin Hact].
    apply active_for_true in Hact as (He & Hu & _).
    exists found. split; [exact Hin |]. unfold key. congruence.
  - assert (Hnoact : forall r, In r (registrations db) ->
              key r = (event_id, user_id) -> r_status r <> active).
    { intros r Hr Hk Hs. rewrite fetchone_filter_None in Eact.
      specialize (Eact r Hr).
      assert (active_for event_id user_id r = true); [| congruence].
      apply active_for_true. injection Hk as He Hu. auto. }
    destruct (fetchone (filter (has_id _) _)) as [row|]; [| auto].
    destruct (existsb _ _) eqn:E.
    + split; [reflexivity |].
      apply existsb_exists in E as (r & Hr & Hk).
      exists r. split; [exact Hr | now apply same_key_true].
    + split; [eexists; reflexivity |]. split; [| now exists row].
      intros r Hr Hk.
      assert (existsb (same_key event_id user_id) (registrations db) = true);
        [| congruence].
      apply existsb_exists. exists r. split; [exact Hr |].
      now apply same_key_true.
Qed.

Lemma register_user_outcomes_witness :
  (exists r, In r (registrations db_left) /\ key r = (1, 10))
  /\ get_event db_full 7 = None.
Proof.
  split.
  - refine (proj2 (register_user_outcomes db_left 105 1 10 None None _ _ _));
      unfold sqlite_integer; cbn; lia.
  - refine (proj1 (proj2 (proj2 (register_user_outcomes db_full 105 7 10 None
                                   None _ _ _))));
      unfold sqlite_integer; cbn; lia.
Defined.

Lemma register_user_true_inv db now event_id user_id username first_name db' :
  register_user db now event_id user_id username first_name
  = Returned true db' ->
  exists t,
    db' = {| events := events db;
             registrations := registrations db ++
               [ {| r_id := next_rowid (map r_id (registrations db));
                    r_event_id := event_id; r_user_id := user_id;
                    r_username := username; r_first_name := first_name;
                    r_registration_type := t;
                    r_registered_at := now; r_status := active |} ] |}
    /\ (t = main ->
        exists ev, In ev (events db) /\ e_id ev = event_id /\
          rowcount (active_of_type event_id main) (registrations db)
          < e_max_players ev)
    /\ (forall r, In r (registrations db) -> key r <> (event_id, user_id)).
Proof.
  unfold register_user, register_user_body, insert_registration.
  destruct (fetchone (filter (active_for _ _) _)); [discriminate |].
  destruct (fetchone (filter (has_id _) _)) as [ev|] eqn:Eev;
    [| discriminate].
  destruct (existsb _ _) eqn:E; [discriminate |].
  intros [= <-]. eexists. split; [reflexivity |]. split.
  - intros Ht. apply fetchone_filter_Some in Eev as [Hev1 Hev2].
    apply has_id_true in Hev2. exists ev. repeat split; auto.
    destruct (_ <? e_max_players ev) eqn:Elt; [| discriminate].
    now apply Z.ltb_lt.
  - intros r Hr Hk.
    assert (existsb (same_key event_id user_id) (registrations db) = true);
      [| congruence].
    apply existsb_exists. exists r. split; [exact Hr |].
    now apply same_key_true.
Qed.

Lemma event_lists_In db event_id i :
  In i (main_list (get_event_registrations db event_id)
        ++ reserve_list (get_event_registrations db event_id)) <->
  exists r, In r (registrations db) /\ r_event_id r = event_id /\
            r_status r = active /\ user_info_of r = i.
Proof.
  rewrite get_event_registrations_eq. cbn [main_list reserve_list].
  rewrite in_app_iff, !in_map_iff. split.
  - intros [(r & Hi & Hr) | (r & Hi & Hr)]; apply order_by_In in Hr;
      apply filter_In in Hr as [Hin Hr];
      apply active_of_type_true in Hr as (He & _ & Hs); exists r; auto.
  - intros (r & Hin & He & Hs & Hi).
    destruct (r_registration_type r) eqn:Et; [left | right]; exists r;
      (split; [exact Hi |]); apply order_by_In; apply filter_In;
      (split; [exact Hin |]); apply active_of_type_true; auto.
Qed.

(** X12: after [register_user] returned [True], the user is on one of the
    two lists of the event, with the names given and the time of the
    call. *)
Theorem register_user_then_listed :
  forall db now event_id user_id username first_name db',
    register_user db now event_id user_id username first_name
    = Returned true db' ->
    let result := get_event_registrations db' event_id in
    In {| ui_user_id := user_id; ui_username := username;
          ui_first_name := first_name; ui_registered_at := now |}
       (main_list result ++ reserve_list result).
Proof.
  intros db now event_id user_id username first_name db' Hreg result.
  apply register_user_true_inv in Hreg as (t & -> & _).
  unfold result. apply event_lists_In. eexists. split.
  - cbn [registrations]. apply in_or_app. right. left. reflexivity.
  - repeat split.
Qed.

Lemma register_user_then_listed_witness :
  In {| ui_user_id := 10; ui_username := Some "ann"%string;
        ui_first_name := Some "Ann"%string; ui_registered_at := 101 |}
     (main_list (get_event_registrations
                   (db_after (register_user db_event 101 1 10
                                (Some "ann"%string) (Some "Ann"%string))) 1)
      ++ reserve_list (get_event_registrations
                   (db_after (register_user db_event 101 1 10
                                (Some "ann"%string) (Some "Ann"%string))) 1)).
Proof.
  exact (register_user_then_listed db_event 101 1 10 (Some "ann"%string)
           (Some "Ann"%string) _ eq_refl).
Defined.

(** X13: after [unregister_user] returned [True], the user is on neither
    list of the event. *)
Theorem unregister_user_then_not_listed :
  forall db event_id user_id db',
    unregister_user db event_id user_id = (true, db') ->
    let result := get_event_registrations db' event_id in
    forall i, In i (main_list result ++ reserve_list result) ->
              ui_user_id i <> user_id.
Proof.
  intros db event_id user_id db' Hun result i Hi Hu.
  apply unregister_user_true_inv in Hun as (_ & _ & Hgone).
  apply event_lists_In in Hi as (r & Hr & He & Hs & <-).
  specialize (Hgone r Hr).
  assert (active_for event_id user_id r = true); [| congruence].
  apply active_for_true. auto.
Qed.

Lemma unregister_user_then_not_listed_witness :
  forallb (fun i => negb (ui_user_id i =? 10))
    (main_list (get_event_registrations
                  (snd (unregister_user db_full 1 10)) 1)
     ++ reserve_list (get_event_registrations
                  (snd (unregister_user db_full 1 10)) 1))
  = true.
Proof.
  apply forallb_forall. intros i Hi.
  apply negb_true_iff. apply Z.eqb_neq.
  exact (unregister_user_then_not_listed db_full 1 10 _ eq_refl i Hi).
Defined.

(** X14: [unregister_user] for an event id that is not stored, called
    with ids that fit SQLite's INTEGER, returns [False] and changes
    nothing, in every reachable store. *)
Theorem unregister_user_unknown_event :
  forall db event_id user_id,
    sqlite_integer event_id ->
    sqlite_integer user_id ->
    reachable db ->
    get_event db event_id = None ->
    unregister_user db event_id user_id = (false, db).
Proof.
  intros db event_id user_id _ _ Hreach Hnone.
  destruct (reachable_schema db Hreach) as [_ _ Hfk].
  rewrite get_event_None in Hnone. unfold unregister_user.
  replace (fetchone (filter (active_for event_id user_id) (registrations db)))
    with (@None registration); [reflexivity |].
  symmetry. apply fetchone_filter_None. intros x Hx.
  destruct (active_for event_id user_id x) eqn:E; [| reflexivity].
  apply active_for_true in E as (He & _).
  destruct (Hfk x Hx) as (e & Hin & Hid).
  exfalso. apply (Hnone e Hin). congruence.
Qed.

Lemma unregister_user_unknown_event_witness :
  unregister_user db_full 7 10 = (false, db_full).
Proof.
  apply (unregister_user_unknown_event db_full 7 10).
  - unfold sqlite_integer. lia.
  - unfold sqlite_integer. lia.
  - exact reachable_example_full.
  - reflexivity.
Defined.

(** X15: [unregister_user] never deletes a row and never touches table
    [events]: every registration keeps its id, event, user, names and
    [registered_at]; a cancelled registration stays cancelled and a main
    registration stays main. *)
Theorem unregister_user_keeps_history :
  forall db event_id user_id,
    let db' := snd (unregister_user db event_id user_id) in
    events db' = events db
    /\ Forall2
         (fun x y =>
            r_id y = r_id x /\ r_event_id y = r_event_id x /\
            r_user_id y = r_user_id x /\ r_username y = r_username x /\
            r_first_name y = r_first_name x /\
            r_registered_at y = r_registered_at x /\
            (r_status x = cancelled -> r_status y = cancelled) /\
            (r_registration_type x = main -> r_registration_type y = main))
         (registrations db) (registrations db').
Proof.
  intros db event_id user_id. cbv zeta. unfold unregister_user.
  assert (Hid : forall l : list registration,
            Forall2 (fun x y : registration =>
              r_id y = r_id x /\ r_event_id y = r_event_id x /\
              r_user_id y = r_user_id x /\ r_username y = r_username x /\
              r_first_name y = r_first_name x /\
              r_registered_at y = r_registered_at x /\
              (r_status x = cancelled -> r_status y = cancelled) /\
              (r_registration_type x = main -> r_registration_type y = main))
              l l).
  { intros l. rewrite <- (map_id l) at 2. apply Forall2_map_In.
    intros x _. repeat split; auto. }
  destruct (fetchone (filter (active_for event_id user_id) (registrations db)))
    as [result|]; cbn [snd events registrations]; [| split; auto].
  split; [reflexivity |].
  destruct (r_registration_type result); [destruct (fetchone _) |];
    unfold update_where; rewrite ?map_map; apply Forall2_map_In;
    intros x _;
    repeat match goal with
           | |- context [if ?c then _ else _] => destruct c
           end; cbn; repeat split; auto; discriminate.
Qed.

(** *** Nobody waits while a main place is free *)

(** Counting after an UPDATE, from below: a row that counted before still
    counts unless it is one of the rows [q] singles out. *)
Lemma rowcount_update_ge {A : Type} (p q f : A -> bool) (set : A -> A) l :
  (forall x, In x l -> p x = true ->
             p (if f x then set x else x) = true \/ q x = true) ->
  rowcount p l <= rowcount p (update_where f set l) + rowcount q l.
Proof.
  unfold rowcount, update_where. intros H.
  enough (length (filter p l)
          <= length (filter p (map (fun x => if f x then set x else x) l))
             + length (filter q l))%nat by lia.
  induction l as [|a l IH]; [simpl; lia |].
  assert (IH' := IH (fun x Hx => H x (or_intror Hx))).
  specialize (H a (or_introl eq_refl)).
  cbn [map filter].
  destruct (p a) eqn:E1.
  - destruct (H eq_refl) as [-> | ->];
      destruct (p (if f a then set a else a)), (q a); cbn [length]; lia.
  - destruct (p (if f a then set a else a)), (q a); cbn [length]; lia.
Qed.

(** Counting after an UPDATE that only brings rows into the count. *)
Lemma rowcount_update_grow {A : Type} (p f : A -> bool) (set : A -> A) l :
  (forall y, In y l -> p y = true -> p (if f y then set y else y) = true) ->
  rowcount p l <= rowcount p (update_where f set l).
Proof.
  unfold rowcount, update_where. intros H.
  enough (length (filter p l)
          <= length (filter p (map (fun x => if f x then set x else x) l)))%nat
    by lia.
  induction l as [|a l IH]; [simpl; lia |].
  assert (IH' := IH (fun x Hx => H x (or_intror Hx))).
  specialize (H a (or_introl eq_refl)).
  cbn [map filter].
  destruct (p a) eqn:E1.
  - rewrite (H eq_refl). cbn [length]. lia.
  - destruct (p (if f a then set a else a)); cbn [length]; lia.
Qed.

(** ... and brings at least one in. *)
Lemma rowcount_update_gt {A : Type} (p f : A -> bool) (set : A -> A) l x :
  (forall y, In y l -> p y = true -> p (if f y then set y else y) = true) ->
  In x l -> p x = false -> p (if f x then set x else x) = true ->
  rowcount p l + 1 <= rowcount p (update_where f set l).
Proof.
  induction l as [|a l IH]; intros H Hin Hpx Hnew; [contradiction |].
  assert (Hgrow := rowcount_update_grow p f set l
                     (fun y Hy => H y (or_intror Hy))).
  assert (Ha := H a (or_introl eq_refl)).
  unfold rowcount, update_where in *. cbn [map filter].
  destruct Hin as [-> | Hin].
  - rewrite Hnew, Hpx. cbn [length]. lia.
  - assert (IH' := IH (fun y Hy => H y (or_intror Hy)) Hin Hpx Hnew).
    destruct (p a) eqn:E.
    + rewrite (Ha eq_refl). cbn [length]. lia.
    + destruct (p (if f a then set a else a)); cbn [length]; lia.
Qed.

(** An UPDATE on rows outside the count leaves the count. *)
Lemma rowcount_update_same {A : Type} (p f : A -> bool) (set : A -> A) l :
  (forall x, In x l -> f x = true -> p x = false /\ p (set x) = false) ->
  rowcount p (update_where f set l) = rowcount p l.
Proof.
  intros H. unfold rowcount, update_where. f_equal. f_equal.
  apply filter_map_same. intros x Hx.
  destruct (f x) eqn:E; [right; now apply H | now left].
Qed.

Lemma create_event_reserve db now date time max_players created_by
      description :
  schema_ok db -> reserve_only_when_full db ->
  reserve_only_when_full
    (snd (create_event db now date time max_players created_by description)).
Proof.
  intros [Hpk Huq Hfk] Hinv e He. cbn [create_event snd events registrations] in *.
  apply in_app_or in He as [He | [<- | []]]; [now apply Hinv |].
  cbn [e_id]. rewrite rowcount_zero; [lia |].
  intros x Hx.
  destruct (active_of_type _ reserve x) eqn:E; [| reflexivity].
  apply active_of_type_true in E as (Hid & _).
  destruct (Hfk x Hx) as (e & He & Hid').
  assert (Hlt := next_rowid_fresh (map e_id (events db)) (e_id e)
                   (in_map e_id _ _ He)).
  lia.
Qed.

Lemma rowcount_single {A : Type} (p : A -> bool) x :
  rowcount p [x] = if p x then 1 else 0.
Proof. unfold rowcount. cbn [filter]. now destruct (p x). Qed.

Lemma register_user_reserve db now event_id user_id username first_name :
  schema_ok db -> reserve_only_when_full db ->
  reserve_only_when_full
    (db_after (register_user db now event_id user_id username first_name)).
Proof.
  intros [Hpk Huq Hfk] Hinv. unfold register_user, register_user_body.
  destruct (fetchone (filter (active_for event_id user_id) (registrations db)));
    [exact Hinv |].
  destruct (fetchone (filter (has_id event_id) (events db))) as [row|] eqn:Erow;
    [| exact Hinv].
  unfold insert_registration.
  destruct (existsb _ _); [exact Hinv |].
  cbn [db_after]. intros e He. cbn [events registrations] in *.
  rewrite !rowcount_app, !rowcount_single. specialize (Hinv e He).
  apply fetchone_filter_Some in Erow as [Hrow1 Hrow2].
  apply has_id_true in Hrow2.
  assert (Hnn : 0 <= rowcount (active_of_type (e_id e) main) (registrations db))
    by (unfold rowcount; lia).
  match goal with
  | |- context [active_of_type _ reserve ?r] => set (new := r)
  end.
  destruct (active_of_type (e_id e) main new) eqn:Em;
    destruct (active_of_type (e_id e) reserve new) eqn:Er; try lia.
  - apply active_of_type_true in Em as (_ & Em & _).
    apply active_of_type_true in Er as (_ & Er & _). congruence.
  - apply active_of_type_true in Er as (Eid & Er & _).
    cbn [new r_event_id r_registration_type] in Eid, Er.
    assert (e = row) by (eapply id_inj; eauto; congruence). subst e.
    rewrite <- Eid in *.
    destruct (_ <? e_max_players row) eqn:Elt; [discriminate |].
    apply Z.ltb_ge in Elt. lia.
Qed.

Lemma cancel_event_reserve db event_id :
  reserve_only_when_full db ->
  reserve_only_when_full (snd (cancel_event db event_id)).
Proof.
  intros Hinv e He. cbn [snd cancel_event events registrations] in *.
  unfold update_where in He. apply in_map_iff in He as (e0 & <- & He0).
  specialize (Hinv e0 He0). destruct (has_id event_id e0); exact Hinv.
Qed.

Lemma rowcount_update_other_event l e' t f
      (set : registration -> registration) event_id :
  e' <> event_id ->
  (forall x, f x = true -> r_event_id x = event_id) ->
  (forall x, r_event_id (set x) = r_event_id x) ->
  rowcount (active_of_type e' t) (update_where f set l)
  = rowcount (active_of_type e' t) l.
Proof.
  intros Hne Hev Hset. apply rowcount_update_same. intros x _ Hf.
  unfold active_of_type. rewrite Hset, (Hev x Hf).
  replace (event_id =? e') with false by (symmetry; apply Z.eqb_neq; congruence).
  split; reflexivity.
Qed.

Lemma active_for_event event_id user_id x :
  active_for event_id user_id x = true -> r_event_id x = event_id.
Proof. intros H. now apply active_for_true in H. Qed.

Lemma unregister_user_reserve db event_id user_id :
  schema_ok db -> reserve_only_when_full db ->
  reserve_only_when_full (snd (unregister_user db event_id user_id)).
Proof.
  intros [Hpk Huq Hfk] Hinv. unfold unregister_user.
  destruct (fetchone (filter (active_for event_id user_id) (registrations db)))
    as [result|] eqn:Eres; [| exact Hinv].
  apply fetchone_filter_Some in Eres as [Hres1 Hres2].
  assert (Honly : forall x, In x (registrations db) ->
                    active_for event_id user_id x = true -> x = result).
  { intros x Hx Hax. apply active_for_true in Hax as (? & ? & ?).
    apply active_for_true in Hres2 as (? & ? & ?).
    eapply key_inj; eauto. unfold key. congruence. }
  set (regs1 := update_where (active_for event_id user_id)
                  (fun r => set_r_status r cancelled) (registrations db)).
  assert (Hres_le : forall e', rowcount (active_of_type e' reserve) regs1
                      <= rowcount (active_of_type e' reserve) (registrations db)).
  { intros e'. apply rowcount_update_mono. intros y _.
    destruct (active_for event_id user_id y); [| auto].
    intros H. apply active_of_type_true in H as (_ & _ & H). discriminate. }
  assert (Hother1 : forall e' t, e' <> event_id ->
            rowcount (active_of_type e' t) regs1
            = rowcount (active_of_type e' t) (registrations db)).
  { intros e' t Hne.
    apply rowcount_update_other_event with (event_id := event_id); auto.
    apply active_for_event. }
  destruct (r_registration_type result) eqn:Etype; cbn [snd];
    intros e He; cbn [events registrations] in *; specialize (Hinv e He).
  - (* a main player leaves *)
    assert (Hres_eq : rowcount (active_of_type event_id reserve) regs1
              = rowcount (active_of_type event_id reserve) (registrations db)).
    { apply rowcount_update_same. intros x Hx Hax.
      rewrite (Honly x Hx Hax). unfold active_of_type. cbn.
      rewrite Etype. cbn. now rewrite !andb_false_r. }
    assert (Hmain1 : rowcount (active_of_type event_id main) (registrations db)
              <= rowcount (active_of_type event_id main) regs1 + 1).
    { assert (H1 := rowcount_same_key_le_1 (registrations db) event_id
                      user_id Huq).
      assert (H2 := rowcount_update_ge (active_of_type event_id main)
                (same_key event_id user_id) (active_for event_id user_id)
                (fun r => set_r_status r cancelled) (registrations db)).
      fold regs1 in H2. lapply H2; [lia |].
      intros x _ Hp.
      destruct (active_for event_id user_id x) eqn:E; [right | now left].
      apply active_for_true in E as (? & ? & _).
      apply same_key_true. unfold key. congruence. }
    destruct (fetchone _) as [next_user|] eqn:Enext.
    + apply fetchone_In in Enext. apply order_by_In in Enext.
      apply filter_In in Enext as [Hn1 Hn2].
      intros Hpos.
      destruct (Z.eq_dec (e_id e) event_id) as [Heq | Hne].
      * rewrite Heq in *.
        assert (Hn := Hn2). apply active_of_type_true in Hn as (Hne & Hnt & Hns).
        assert (Hgt : rowcount (active_of_type event_id main) regs1 + 1
                  <= rowcount (active_of_type event_id main)
                       (update_where
                          (active_for event_id (r_user_id next_user))
                          (fun r => set_r_type r main) regs1)).
        { apply rowcount_update_gt with (x := next_user); auto.
          - intros y _ Hy. destruct (active_for _ _ y); [| exact Hy].
            apply active_of_type_true in Hy as (? & ? & ?).
            apply active_of_type_true. cbn. auto.
          - destruct (active_of_type event_id main next_user) eqn:E;
              [| reflexivity].
            apply active_of_type_true in E as (_ & E & _). congruence.
          - replace (active_for event_id (r_user_id next_user) next_user)
              with true by (symmetry; apply active_for_true; auto).
            apply active_of_type_true. cbn. auto. }
        assert (Hhas : 0 < rowcount (active_of_type event_id reserve) regs1)
          by (apply rowcount_pos_iff; now exists next_user).
        rewrite Hres_eq in Hhas. specialize (Hinv Hhas). lia.
      * assert (Hother2 : forall t,
                  rowcount (active_of_type (e_id e) t)
                    (update_where (active_for event_id (r_user_id next_user))
                                  (fun r => set_r_type r main) regs1)
                  = rowcount (active_of_type (e_id e) t) regs1).
        { intros t.
          apply rowcount_update_other_event with (event_id := event_id);
            [exact Hne | apply active_for_event | reflexivity]. }
        rewrite Hother2 in *. rewrite !Hother1 in * by assumption.
        now apply Hinv.
    + apply fetchone_order_by_None in Enext. intros Hpos.
      destruct (Z.eq_dec (e_id e) event_id) as [Heq | Hne].
      * rewrite Heq in Hpos. unfold rowcount in Hpos.
        rewrite Enext in Hpos. cbn in Hpos. lia.
      * rewrite Hother1 in * by assumption. now apply Hinv.
  - (* a reserve player leaves *)
    assert (Hmain_eq : rowcount (active_of_type (e_id e) main) regs1
              = rowcount (active_of_type (e_id e) main) (registrations db)).
    { apply rowcount_update_same. intros x Hx Hax.
      rewrite (Honly x Hx Hax). unfold active_of_type. cbn.
      rewrite Etype. cbn. now rewrite !andb_false_r. }
    intros Hpos. rewrite Hmain_eq. apply Hinv.
    specialize (Hres_le (e_id e)). lia.
Qed.

Lemma reachable_reserve db : reachable db -> reserve_only_when_full db.
Proof.
  induction 1 as [| db now date time mp cb descr Hr IH Hmp
                  | db now e u un fn Hr IH | db e u Hr IH | db e Hr IH].
  - intros e [].
  - apply create_event_reserve; auto using reachable_schema.
  - apply register_user_reserve; auto using reachable_schema.
  - apply unregister_user_reserve; auto using reachable_schema.
  - now apply cancel_event_reserve.
Qed.

(** X16: in a reachable store, whenever the reserve list of an event is
    not empty its main list holds exactly [max_players] players. *)
Theorem reserve_only_when_main_full :
  forall db e,
    reachable db ->
    In e (events db) ->
    reserve_list (get_event_registrations db (e_id e)) <> [] ->
    Z.of_nat (length (main_list (get_event_registrations db (e_id e))))
    = e_max_players e.
Proof.
  intros db e Hreach He Hne.
  assert (Hcap := reachable_capacity db Hreach e He).
  assert (Hinv := reachable_reserve db Hreach e He).
  rewrite get_event_registrations_eq in *. cbn [main_list reserve_list] in *.
  rewrite length_map, (Permutation_length (order_by_perm by_registered_at _)).
  unfold rowcount in *.
  enough (0 < Z.of_nat (length (filter (active_of_type (e_id e) reserve)
                                       (registrations db)))) by lia.
  rewrite <- (Permutation_length (order_by_perm by_registered_at _)).
  destruct (order_by by_registered_at _); [contradiction | cbn [length]; lia].
Qed.

Lemma reserve_only_when_main_full_witness :
  Z.of_nat (length (main_list (get_event_registrations db_full 1))) = 2.
Proof.
  apply (reserve_only_when_main_full db_full
           (mk_event 1 "25/12/2024" "19:00" 2 "Christmas game" 1 100 active)
           reachable_example_full (or_introl eq_refl)).
  discriminate.
Defined.

Lemma update_where_app {A : Type} f (set : A -> A) l1 l2 :
  update_where f set (l1 ++ l2)
  = update_where f set l1 ++ update_where f set l2.
Proof. apply map_app. Qed.

(** X17: joining and then leaving brings the lists back.  In a reachable
    store, after [register_user] returned [True] the matching
    [unregister_user] returns [True], and then every event has the same
    main and reserve lists as before the two calls; nobody was promoted
    in between. *)
Theorem register_then_unregister_restores :
  forall db now event_id user_id username first_name db1,
    reachable db ->
    register_user db now event_id user_id username first_name
    = Returned true db1 ->
    exists db2,
      unregister_user db1 event_id user_id = (true, db2)
      /\ events db2 = events db
      /\ (forall ev, get_event_registrations db2 ev
                     = get_event_registrations db ev)
      /\ (forall ev, get_players_for_teams db2 ev
                     = get_players_for_teams db ev).
Proof.
  intros db now event_id user_id username first_name db1 Hreach Hreg.
  assert (Hpk := events_pk db (reachable_schema db Hreach)).
  assert (Hinv := reachable_reserve db Hreach).
  apply register_user_true_inv in Hreg as (t & -> & Hmain & Hfresh).
  set (new := {| r_id := next_rowid (map r_id (registrations db));
                 r_event_id := event_id; r_user_id := user_id;
                 r_username := username; r_first_name := first_name;
                 r_registration_type := t;
                 r_registered_at := now; r_status := active |}) in *.
  assert (Hnone : forall x, In x (registrations db) ->
                    active_for event_id user_id x = false).
  { intros x Hx. destruct (active_for event_id user_id x) eqn:E; [| reflexivity].
    apply active_for_true in E as (? & ? & _).
    exfalso. apply (Hfresh x Hx). unfold key. congruence. }
  assert (Hnew : active_for event_id user_id new = true)
    by (apply active_for_true; repeat split).
  set (final := {| events := events db;
                   registrations := registrations db
                                    ++ [set_r_status new cancelled] |}).
  assert (Hun : unregister_user
                  {| events := events db;
                     registrations := registrations db ++ [new] |}
                  event_id user_id = (true, final)).
  { unfold unregister_user. cbn [registrations events].
    rewrite filter_app, (proj2 (filter_nil_iff _ _) Hnone).
    cbn [app filter]. rewrite Hnew. cbn [fetchone].
    rewrite update_where_app, (update_where_none _ _ _ Hnone).
    cbn [update_where map]. rewrite Hnew.
    destruct t eqn:Et; cbn [new r_registration_type]; [| reflexivity].
    destruct (Hmain eq_refl) as (ev & Hev & Hid & Hlt).
    replace (filter (active_of_type event_id reserve)
               (registrations db ++ [set_r_status new cancelled]))
      with (@nil registration); [reflexivity |].
    symmetry. apply filter_nil_iff. intros x Hx.
    apply in_app_or in Hx as [Hx | [<- | []]].
    - destruct (active_of_type event_id reserve x) eqn:E; [| reflexivity].
      exfalso. specialize (Hinv ev Hev). rewrite Hid in Hinv.
      assert (0 < rowcount (active_of_type event_id reserve)
                           (registrations db))
        by (apply rowcount_pos_iff; now exists x).
      specialize (Hinv H). lia.
    - unfold active_of_type. cbn. now rewrite andb_false_r. }
  exists final. split; [exact Hun |]. split; [reflexivity |].
  assert (Hfilter : forall ev ty,
            filter (active_of_type ev ty) (registrations final)
            = filter (active_of_type ev ty) (registrations db)).
  { intros ev ty. cbn [final registrations]. rewrite filter_app.
    cbn [filter]. unfold active_of_type at 2. cbn.
    rewrite andb_false_r. apply app_nil_r. }
  split; intros ev.
  - rewrite !get_event_registrations_eq, !Hfilter. reflexivity.
  - unfold get_players_for_teams. now rewrite Hfilter.
Qed.

Lemma register_then_unregister_restores_witness :
  exists db2,
    unregister_user
      (db_after (register_user db_full 104 1 13 None (Some "Dan"%string)))
      1 13 = (true, db2)
    /\ get_event_registrations db2 1 = get_event_registrations db_full 1.
Proof.
  destruct (register_then_unregister_restores db_full 104 1 13 None
              (Some "Dan"%string) _ reachable_example_full eq_refl)
    as (db2 & Hun & _ & Hlists & _).
  exists db2. split; [exact Hun | apply Hlists].
Defined.

(** *** The registrations of a user *)

Lemma join_In db e r :
  In (e, r) (join_events_registrations db) <->
  In e (events db) /\ In r (registrations db) /\ e_id e = r_event_id r.
Proof.
  unfold join_events_registrations. rewrite in_flat_map. split.
  - intros (e' & He' & Hin). apply in_map_iff in Hin as (r' & [= -> ->] & Hr).
    apply filter_In in Hr as [Hr Hid]. apply Z.eqb_eq in Hid. auto.
  - intros (He & Hr & Hid). exists e. split; [exact He |].
    apply in_map. apply filter_In. split; [exact Hr | now apply Z.eqb_eq].
Qed.

Lemma get_user_registrations_In db user_id id date time t :
  In (id, date, time, t) (get_user_registrations db user_id) <->
  exists e r,
    In e (events db) /\ In r (registrations db) /\
    r_event_id r = e_id e /\ r_user_id r = user_id /\
    r_status r = active /\ e_status e = active /\
    id = e_id e /\ date = e_date e /\ time = e_time e /\
    t = r_registration_type r.
Proof.
  unfold get_user_registrations. rewrite in_map_iff. split.
  - intros ([e r] & Hrow & Hin). cbn [fst snd] in Hrow.
    apply order_by_In in Hin. apply filter_In in Hin as [Hin Hcond].
    apply join_In in Hin as (He & Hr & Hid).
    cbn [fst snd] in Hcond. rewrite !andb_true_iff in Hcond.
    destruct Hcond as [[Hu Hs] Hes].
    apply Z.eqb_eq in Hu. apply status_eqb_eq in Hs, Hes.
    injection Hrow as <- <- <- <-. exists e, r. repeat split; auto.
  - intros (e & r & He & Hr & Hid & Hu & Hs & Hes & -> & -> & -> & ->).
    exists (e, r). split; [reflexivity |].
    apply order_by_In. apply filter_In. split.
    + apply join_In. auto.
    + cbn [fst snd]. rewrite !andb_true_iff, Z.eqb_eq, !status_eqb_eq. auto.
Qed.

Lemma StronglySorted_impl {A : Type} (R1 R2 : A -> A -> Prop) l :
  (forall a b, R1 a b -> R2 a b) ->
  StronglySorted R1 l -> StronglySorted R2 l.
Proof.
  intros H. induction 1 as [|a l Hs IH Hall]; constructor; [exact IH |].
  rewrite Forall_forall in *. auto.
Qed.

(** X18: [get_user_registrations] lists exactly the pairs of an active
    event and an active registration of the user for it, with the event's
    id, date and time and the registration's type, ordered by date and
    then time as byte strings. *)
Theorem get_user_registrations_spec :
  forall db user_id,
    (forall id date time t,
        In (id, date, time, t) (get_user_registrations db user_id) <->
        exists e r,
          In e (events db) /\ In r (registrations db) /\
          r_event_id r = e_id e /\ r_user_id r = user_id /\
          r_status r = active /\ e_status e = active /\
          id = e_id e /\ date = e_date e /\ time = e_time e /\
          t = r_registration_type r)
    /\ StronglySorted
         (fun a b =>
            let '(_, date1, time1, _) := a in
            let '(_, date2, time2, _) := b in
            String.compare date1 date2 = Lt
            \/ (date1 = date2 /\ String.leb time1 time2 = true))
         (get_user_registrations db user_id).
Proof.
  intros db user_id. split; [intros; apply get_user_registrations_In |].
  unfold get_user_registrations. apply StronglySorted_map.
  apply (StronglySorted_impl
           (fun a b : event * registration =>
              by_date_time (fst a) (fst b) = true)).
  - intros [e1 r1] [e2 r2] H. cbn [fst snd] in *.
    now apply by_date_time_true.
  - apply order_by_strongly_sorted.
    + intros a b. apply by_date_time_total.
    + intros a b c. apply by_date_time_trans.
Qed.

(** X19: after [cancel_event] the cancelled event is gone from every
    user's registrations, and the other entries are as before. *)
Theorem cancel_event_hides_user_registrations :
  forall db event_id user_id id date time t,
    In (id, date, time, t)
       (get_user_registrations (snd (cancel_event db event_id)) user_id)
    <-> In (id, date, time, t) (get_user_registrations db user_id)
        /\ id <> event_id.
Proof.
  intros db event_id user_id id date time t.
  rewrite !get_user_registrations_In. unfold cancel_event.
  cbn [snd events registrations]. unfold update_where. split.
  - intros (e' & r & He' & Hr & Hid & Hu & Hs & Hes & -> & -> & -> & ->).
    apply in_map_iff in He' as (e & <- & He).
    destruct (has_id event_id e) eqn:E; [discriminate Hes |].
    split; [exists e, r; repeat split; auto |].
    now apply Z.eqb_neq in E.
  - intros [(e & r & He & Hr & Hid & Hu & Hs & Hes & -> & -> & -> & ->) Hne].
    exists e, r. repeat split; auto.
    apply in_map_iff. exists e. split; [| exact He].
    replace (has_id event_id e) with false; [reflexivity |].
    symmetry. now apply Z.eqb_neq.
Qed.

Lemma NoDup_map_inj_on {A B : Type} (g : A -> B) l :
  (forall x y, In x l -> In y l -> g x = g y -> x = y) ->
  NoDup l -> NoDup (map g l).
Proof.
  intros Hinj Hnd. induction Hnd as [|a l Hnotin Hnd IH]; cbn [map];
    constructor.
  - intros Hin. apply in_map_iff in Hin as (x & Hg & Hx).
    assert (x = a) by (apply Hinj; [now right | now left | exact Hg]).
    subst x. contradiction.
  - apply IH. intros x y Hx Hy. apply Hinj; now right.
Qed.

Lemma join_NoDup db :
  NoDup (events db) -> NoDup (registrations db) ->
  NoDup (join_events_registrations db).
Proof.
  intros He Hr. unfold join_events_registrations.
  induction He as [|a l Hnotin He IH]; cbn [flat_map]; [constructor |].
  apply NoDup_app.
  - apply NoDup_map_inj_on; [| now apply NoDup_filter].
    intros x y _ _ [= ->]. reflexivity.
  - exact IH.
  - intros [e r] H1 H2. apply in_map_iff in H1 as (r' & [= <- <-] & _).
    apply in_flat_map in H2 as (e' & He' & H2).
    apply in_map_iff in H2 as (r'' & [= -> ->] & _). contradiction.
Qed.

(** X20: in a reachable store an event appears at most once among the
    registrations of a user. *)
Theorem user_registrations_no_duplicate_event :
  forall db user_id,
    reachable db ->
    NoDup (map (fun row => fst (fst (fst row)))
               (get_user_registrations db user_id)).
Proof.
  intros db user_id Hreach.
  destruct (reachable_schema db Hreach) as [Hpk Huq _].
  unfold get_user_registrations. rewrite map_map. cbn [fst].
  set (cond := fun er : event * registration => _).
  eapply Permutation_NoDup.
  - apply Permutation_map. symmetry. apply order_by_perm.
  - apply NoDup_map_inj_on.
    + intros [e1 r1] [e2 r2] H1 H2 Hid. cbn [fst] in Hid.
      apply filter_In in H1 as [H1 C1], H2 as [H2 C2].
      apply join_In in H1 as (He1 & Hr1 & Hid1).
      apply join_In in H2 as (He2 & Hr2 & Hid2).
      unfold cond in C1, C2. cbn [fst snd] in C1, C2.
      rewrite !andb_true_iff, Z.eqb_eq in C1, C2.
      destruct C1 as [[Hu1 _] _], C2 as [[Hu2 _] _].
      assert (e1 = e2) by (eapply id_inj; eauto). subst e2.
      assert (r1 = r2)
        by (eapply key_inj; eauto; unfold key; congruence).
      now subst r2.
    + apply NoDup_filter. apply join_NoDup.
      * eapply NoDup_map_inv. exact Hpk.
      * now apply NoDup_of_keys.
Qed.

Lemma user_registrations_no_duplicate_event_witness :
  NoDup (map (fun row => fst (fst (fst row)))
             (get_user_registrations db_full 12)).
Proof.
  exact (user_registrations_no_duplicate_event db_full 12
           reachable_example_full).
Defined.

(** ** Properties of the bot's helpers *)

(** *** Random teams *)

Lemma list_pop_spec {A : Type} (l : list A) :
  match list_pop l with
  | None => l = []
  | Some (x, l') => l = l' ++ [x]
  end.
Proof.
  unfold list_pop. destruct (rev l) as [|x r] eqn:E.
  - rewrite <- (rev_involutive l), E. reflexivity.
  - rewrite <- (rev_involutive l), E. reflexivity.
Qed.

Lemma split_teams_halves (A : Type) (players : list A) :
  exists team1 team2,
    split_teams players = Some (team1, team2)
    /\ Permutation (team1 ++ team2) players
    /\ length team1 = ((length players + 1) / 2)%nat
    /\ length team2 = (length players / 2)%nat.
Proof.
  unfold split_teams.
  set (n := length players). set (m := (n / 2)%nat).
  assert (Hn := Nat.div_mod_eq n 2). fold m in Hn.
  assert (Hr := Nat.mod_upper_bound n 2 ltac:(lia)).
  assert (Hn1 := Nat.div_mod_eq (n + 1) 2).
  assert (Hr1 := Nat.mod_upper_bound (n + 1) 2 ltac:(lia)).
  assert (Hl1 : length (firstn m players) = m)
    by (rewrite length_firstn; fold n; lia).
  assert (Hl2 : length (skipn m players) = (n - m)%nat)
    by (rewrite length_skipn; reflexivity).
  destruct (n mod 2 =? 1)%nat eqn:Eodd.
  - apply Nat.eqb_eq in Eodd.
    assert (Hpop := list_pop_spec (skipn m players)).
    destruct (list_pop (skipn m players)) as [[x team2]|].
    + exists (firstn m players ++ [x]), team2.
      split; [reflexivity |].
      assert (Hlen : length team2 = m).
      { rewrite Hpop, length_app in Hl2. cbn [length] in Hl2. lia. }
      split; [| split].
      * rewrite <- app_assoc.
        transitivity (firstn m players ++ skipn m players);
          [| now rewrite firstn_skipn].
        apply Permutation_app_head. rewrite Hpop.
        apply Permutation_app_comm.
      * rewrite length_app, Hl1. cbn [length]. lia.
      * exact Hlen.
    + exfalso. rewrite Hpop in Hl2. cbn [length] in Hl2. lia.
  - apply Nat.eqb_neq in Eodd.
    exists (firstn m players), (skipn m players).
    split; [reflexivity |]. split; [| split].
    + now rewrite firstn_skipn.
    + rewrite Hl1. lia.
    + rewrite Hl2. lia.
Qed.

(** X21: the split of [randomize_teams_command] never fails; the two
    teams together hold every player of the shuffled list exactly once,
    the first team has the larger half (n+1)/2 and the second n/2. *)
Theorem split_teams_spec :
  forall (A : Type) (players : list A),
    exists team1 team2,
      split_teams players = Some (team1, team2)
      /\ Permutation (team1 ++ team2) players
      /\ length team1 = ((length players + 1) / 2)%nat
      /\ length team2 = (length players / 2)%nat.
Proof. exact split_teams_halves. Qed.

(** X22: whatever order the shuffle produces, [randomize_teams_command]
    answers "not found" only for an id with no event and "need two
    players" only when fewer than two players are on the main list;
    otherwise it forms two teams that together hold exactly the players of
    [get_players_for_teams], the first team as large as the second or one
    larger; the [pop] never raises. *)
Theorem randomize_teams_spec :
  forall shuffle db event_id,
    (forall l, Permutation (shuffle l) l) ->
    match randomize_teams shuffle db event_id with
    | EventNotFound => get_event db event_id = None
    | NeedTwoPlayers =>
      (length (get_players_for_teams db event_id) < 2)%nat
    | Teams team1 team2 =>
      Permutation (team1 ++ team2) (get_players_for_teams db event_id)
      /\ (1 <= length team2 <= length team1)%nat
      /\ (length team1 <= length team2 + 1)%nat
    | IndexError => False
    end.
Proof.
  intros shuffle db event_id Hperm. unfold randomize_teams.
  destruct (get_event db event_id); [| reflexivity].
  destruct (length (get_players_for_teams db event_id) <? 2)%nat eqn:Elt.
  - now apply Nat.ltb_lt in Elt.
  - apply Nat.ltb_ge in Elt.
    destruct (split_teams_halves player
                (shuffle (get_players_for_teams db event_id)))
      as (team1 & team2 & -> & Hp & H1 & H2).
    rewrite (Permutation_length (Hperm _)) in H1, H2.
    set (n := length (get_players_for_teams db event_id)) in *.
    assert (Hn := Nat.div_mod_eq n 2).
    assert (Hr := Nat.mod_upper_bound n 2 ltac:(lia)).
    assert (Hn1 := Nat.div_mod_eq (n + 1) 2).
    assert (Hr1 := Nat.mod_upper_bound (n + 1) 2 ltac:(lia)).
    split; [| lia].
    now rewrite Hp.
Qed.

Lemma randomize_teams_spec_witness :
  exists team1 team2,
    randomize_teams (@rev player) db_full 1 = Teams team1 team2
    /\ Permutation (team1 ++ team2) (get_players_for_teams db_full 1).
Proof.
  assert (H := randomize_teams_spec (@rev player) db_full 1
                 (fun l => Permutation_sym (Permutation_rev l))).
  destruct (randomize_teams (@rev player) db_full 1) as [| |t1 t2|] eqn:E;
    try discriminate E.
  exists t1, t2. split; [reflexivity | exact (proj1 H)].
Defined.

(** *** Shortening a description *)

Lemma slice_to_nonneg {A : Type} (l : list A) k :
  0 <= k -> slice_to l k = firstn (Z.to_nat k) l.
Proof.
  intros Hk. unfold slice_to.
  now replace (k <? 0) with false by (symmetry; apply Z.ltb_ge; lia).
Qed.

(** X23: with a limit of at least 1, [truncate] returns at most
    [max_len] characters: the text itself when it fits, otherwise its
    first [max_len - 1] characters followed by the ellipsis, which is
    exactly [max_len] characters. *)
Theorem truncate_within_limit :
  forall (char : Type) (ellipsis : char) (text : list char) max_len,
    1 <= max_len ->
    Z.of_nat (length (truncate ellipsis text max_len)) <= max_len
    /\ (Z.of_nat (length text) <= max_len ->
        truncate ellipsis text max_len = text)
    /\ (max_len < Z.of_nat (length text) ->
        truncate ellipsis text max_len
        = firstn (Z.to_nat (max_len - 1)) text ++ [ellipsis]
        /\ Z.of_nat (length (truncate ellipsis text max_len)) = max_len).
Proof.
  intros char ellipsis text max_len Hmax. unfold truncate.
  destruct text as [|c text]; [cbn [length]; repeat split; try lia |].
  set (t := c :: text).
  destruct (Z.of_nat (length t) <=? max_len) eqn:E.
  - apply Z.leb_le in E. repeat split; try lia.
  - apply Z.leb_gt in E. rewrite slice_to_nonneg by lia.
    assert (Hlen : Z.of_nat (length (firstn (Z.to_nat (max_len - 1)) t
                                     ++ [ellipsis])) = max_len).
    { rewrite length_app, length_firstn. cbn [length]. lia. }
    repeat split; lia.
Qed.

Lemma truncate_within_limit_witness :
  truncate 8230%N [72; 101; 108; 108; 111]%N 3 = [72; 101; 8230]%N.
Proof.
  refine (proj1 (proj2 (proj2 (truncate_within_limit N 8230%N
                   [72; 101; 108; 108; 111]%N 3 _)) _)); cbn; lia.
Defined.

(** X24: with a limit of 0 or less the bound is lost: for a text that is
    not empty, [max_len - 1] is a negative slice index and counts from the
    end, so the result is the text without its last [1 - max_len]
    characters, followed by the ellipsis, and is longer than
    [max_len]. *)
Theorem truncate_nonpositive_limit :
  forall (char : Type) (ellipsis : char) (text : list char) max_len,
    max_len <= 0 ->
    text <> [] ->
    truncate ellipsis text max_len
    = firstn (length text - Z.to_nat (1 - max_len)) text ++ [ellipsis]
    /\ max_len < Z.of_nat (length (truncate ellipsis text max_len)).
Proof.
  intros char ellipsis text max_len Hmax Hne. unfold truncate.
  destruct text as [|c text]; [contradiction |].
  set (t := c :: text).
  assert (Hpos : 0 < Z.of_nat (length t)) by (cbn [t length]; lia).
  replace (Z.of_nat (length t) <=? max_len) with false
    by (symmetry; apply Z.leb_gt; lia).
  unfold slice_to.
  replace (max_len - 1 <? 0) with true by (symmetry; apply Z.ltb_lt; lia).
  replace (Z.to_nat (Z.max 0 (Z.of_nat (length t) + (max_len - 1))))
    with (length t - Z.to_nat (1 - max_len))%nat by lia.
  split; [reflexivity |].
  rewrite length_app. cbn [length]. lia.
Qed.

Lemma truncate_nonpositive_limit_witness :
  truncate 8230%N [72; 101; 108; 108; 111]%N 0 = [72; 101; 108; 108; 8230]%N.
Proof.
  refine (proj1 (truncate_nonpositive_limit N 8230%N
                   [72; 101; 108; 108; 111]%N 0 _ _)); [lia | discriminate].
Defined.

(** ** Leaving, seen through the queries *)

(** X25: no call changes a stored event except in its status:
    [register_user], [unregister_user] and [cancel_event] leave the id,
    date, time, capacity, description, creator and creation time of every
    event as they are, in the same row order, and [create_event] only
    appends a row. *)
Theorem event_columns_immutable :
  forall db,
    (forall now event_id user_id username first_name,
        map event_columns
            (events (db_after (register_user db now event_id user_id
                                             username first_name)))
        = map event_columns (events db))
    /\ (forall event_id user_id,
           map event_columns
               (events (snd (unregister_user db event_id user_id)))
           = map event_columns (events db))
    /\ (forall event_id,
           map event_columns (events (snd (cancel_event db event_id)))
           = map event_columns (events db))
    /\ (forall now date time max_players created_by description,
           exists e,
             events (snd (create_event db now date time max_players
                                       created_by description))
             = events db ++ [e]).
Proof.
  intros db. repeat split.
  - intros now event_id user_id username first_name.
    unfold register_user, register_user_body, insert_registration.
    destruct (fetchone (filter (active_for _ _) _)); [reflexivity |].
    destruct (fetchone (filter (has_id _) _)); [| reflexivity].
    destruct (existsb _ _); reflexivity.
  - intros event_id user_id. unfold unregister_user.
    destruct (fetchone (filter (active_for _ _) _)); reflexivity.
  - intros event_id. unfold cancel_event. cbn [snd events].
    now apply update_where_map.
  - intros. eexists. reflexivity.
Qed.

(** X26: when a user on the reserve list leaves, in a reachable store, no
    main list changes: every event has the same main list and the same
    players for its teams as before. *)
Theorem reserve_leaving_keeps_main_lists :
  forall db r,
    reachable db ->
    In r (registrations db) ->
    r_status r = active ->
    r_registration_type r = reserve ->
    let db' := snd (unregister_user db (r_event_id r) (r_user_id r)) in
    fst (unregister_user db (r_event_id r) (r_user_id r)) = true
    /\ forall ev,
         get_players_for_teams db' ev = get_players_for_teams db ev
         /\ main_list (get_event_registrations db' ev)
            = main_list (get_event_registrations db ev).
Proof.
  intros db r Hreach Hin Hact Htype.
  destruct (reachable_schema db Hreach) as [_ Huq _].
  cbv zeta. unfold unregister_user.
  rewrite fetchone_active_for by assumption. rewrite Htype.
  cbn [fst snd]. split; [reflexivity |]. intros ev.
  assert (Hf : filter (active_of_type ev main)
                 (update_where (active_for (r_event_id r) (r_user_id r))
                    (fun x => set_r_status x cancelled) (registrations db))
               = filter (active_of_type ev main) (registrations db)).
  { unfold update_where. apply filter_map_same. intros x Hx.
    destruct (active_for (r_event_id r) (r_user_id r) x) eqn:E; [| now left].
    right. apply (active_for_only _ r x Huq Hin Hx Hact) in E. subst x.
    unfold active_of_type. cbn. rewrite Htype. cbn.
    now rewrite !andb_false_r. }
  rewrite !get_event_registrations_eq. unfold get_players_for_teams.
  cbn [main_list registrations]. now rewrite Hf.
Qed.

Lemma reserve_leaving_keeps_main_lists_witness :
  get_players_for_teams (snd (unregister_user db_full 1 12)) 1
  = get_players_for_teams db_full 1.
Proof.
  exact (proj1 (proj2 (reserve_leaving_keeps_main_lists db_full
                  (mk_registration 3 1 12 (Some "cy"%string) None reserve 103
                                   active)
                  reachable_example_full
                  (or_intror (or_intror (or_introl eq_refl)))
                  eq_refl eq_refl) 1)).
Defined.

(** The counts of an event after a main player left while somebody was
    on reserve. *)
Lemma unregister_user_main_counts db r :
  NoDup (map key (registrations db)) ->
  In r (registrations db) -> r_status r = active ->
  r_registration_type r = main ->
  0 < rowcount (active_of_type (r_event_id r) reserve) (registrations db) ->
  let regs' := registrations
                 (snd (unregister_user db (r_event_id r) (r_user_id r))) in
  rowcount (active_of_type (r_event_id r) main) regs'
  = rowcount (active_of_type (r_event_id r) main) (registrations db)
  /\ rowcount (active_of_type (r_event_id r) reserve) regs' + 1
     = rowcount (active_of_type (r_event_id r) reserve) (registrations db).
Proof.
  intros Huq Hin Hact Htype Hres regs'. unfold regs'.
  rewrite unregister_user_main_eq by assumption. cbn [snd registrations].
  set (e := r_event_id r) in *. set (u := r_user_id r) in *.
  set (regs1 := update_where (active_for e u)
                  (fun x => set_r_status x cancelled) (registrations db)).
  assert (Hself : active_for e u r = true) by (now apply active_for_true).
  (* the cancelling UPDATE *)
  assert (Hm1a : rowcount (active_of_type e main) regs1 + 1
                 <= rowcount (active_of_type e main) (registrations db)).
  { apply rowcount_update_lt with (x := r); auto.
    - intros y _. destruct (active_for e u y); [| auto].
      intros H. apply active_of_type_true in H as (_ & _ & H). discriminate.
    - apply active_of_type_true. auto.
    - rewrite Hself. unfold active_of_type. cbn. now rewrite andb_false_r. }
  assert (Hm1b : rowcount (active_of_type e main) (registrations db)
                 <= rowcount (active_of_type e main) regs1 + 1).
  { assert (H1 := rowcount_same_key_le_1 (registrations db) e u Huq).
    assert (H2 := rowcount_update_ge (active_of_type e main) (same_key e u)
                    (active_for e u) (fun x => set_r_status x cancelled)
                    (registrations db)).
    fold regs1 in H2. lapply H2; [lia |].
    intros x _ Hp. destruct (active_for e u x) eqn:E; [right | now left].
    apply active_for_true in E as (? & ? & _).
    apply same_key_true. unfold key. congruence. }
  assert (Hr1 : rowcount (active_of_type e reserve) regs1
                = rowcount (active_of_type e reserve) (registrations db)).
  { apply rowcount_update_same. intros x Hx Hax.
    apply (active_for_only _ r x Huq Hin Hx Hact) in Hax. subst x.
    unfold active_of_type. cbn. rewrite Htype. cbn.
    now rewrite !andb_false_r. }
  assert (Hk1 : map key regs1 = map key (registrations db))
    by (apply update_where_keys; reflexivity).
  (* the row that moves up *)
  destruct (fetchone _) as [next_user|] eqn:Enext.
  2: { apply fetchone_order_by_None in Enext. unfold rowcount in Hres.
       rewrite Enext in Hres. cbn in Hres. lia. }
  apply fetchone_In in Enext. apply order_by_In in Enext.
  apply filter_In in Enext as [Hn1 Hn2].
  assert (Hn := Hn2). apply active_of_type_true in Hn as (Hne & Hnt & Hns).
  assert (Hnself : active_for e (r_user_id next_user) next_user = true)
    by (apply active_for_true; auto).
  assert (Hn1' : In next_user regs1).
  { unfold regs1, update_where. apply in_map_iff. exists next_user.
    split; [| exact Hn1].
    destruct (active_for e u next_user) eqn:E; [| reflexivity].
    apply (active_for_only _ r next_user Huq Hin Hn1 Hact) in E. congruence. }
  assert (Hone := rowcount_same_key_le_1 regs1 e (r_user_id next_user)).
  rewrite Hk1 in Hone. specialize (Hone Huq).
  assert (Hq : forall x, active_for e (r_user_id next_user) x = true ->
                         same_key e (r_user_id next_user) x = true).
  { intros x Hx. apply active_for_true in Hx as (? & ? & _).
    apply same_key_true. unfold key. congruence. }
  set (regs2 := update_where (active_for e (r_user_id next_user))
                  (fun x => set_r_type x main) regs1).
  assert (Hm2a : rowcount (active_of_type e main) regs1 + 1
                 <= rowcount (active_of_type e main) regs2).
  { apply rowcount_update_gt with (x := next_user); auto.
    - intros y _ Hy. destruct (active_for _ _ y); [| exact Hy].
      apply active_of_type_true in Hy as (? & ? & ?).
      apply active_of_type_true. cbn. auto.
    - destruct (active_of_type e main next_user) eqn:E; [| reflexivity].
      apply active_of_type_true in E as (_ & E & _). congruence.
    - rewrite Hnself. apply active_of_type_true. cbn. auto. }
  assert (Hm2b : rowcount (active_of_type e main) regs2
                 <= rowcount (active_of_type e main) regs1 + 1).
  { assert (H2 := rowcount_update_le (active_of_type e main)
                    (same_key e (r_user_id next_user))
                    (active_for e (r_user_id next_user))
                    (fun x => set_r_type x main) regs1).
    fold regs2 in H2. lapply H2; [lia |].
    intros x _. destruct (active_for _ _ x) eqn:E; [| auto].
    intros _. right. now apply Hq. }
  assert (Hr2a : rowcount (active_of_type e reserve) regs2 + 1
                 <= rowcount (active_of_type e reserve) regs1).
  { apply rowcount_update_lt with (x := next_user); auto.
    - intros y _. destruct (active_for _ _ y); [| auto].
      intros H. apply active_of_type_true in H as (_ & H & _). discriminate.
    - rewrite Hnself. unfold active_of_type. cbn.
      now rewrite andb_false_r. }
  assert (Hr2b : rowcount (active_of_type e reserve) regs1
                 <= rowcount (active_of_type e reserve) regs2 + 1).
  { assert (H2 := rowcount_update_ge (active_of_type e reserve)
                    (same_key e (r_user_id next_user))
                    (active_for e (r_user_id next_user))
                    (fun x => set_r_type x main) regs1).
    fold regs2 in H2. lapply H2; [lia |].
    intros x _ Hp. destruct (active_for _ _ x) eqn:E; [right | now left].
    now apply Hq. }
  lia.
Qed.

(** X27: a vacated main place is filled at once.  In a reachable store,
    when a main player of an event leaves while its reserve list is not
    empty, the main list afterwards holds [max_players] players again and
    the reserve list is one shorter. *)
Theorem leaving_main_keeps_main_full :
  forall db e r,
    reachable db ->
    In e (events db) ->
    In r (registrations db) ->
    r_event_id r = e_id e ->
    r_status r = active ->
    r_registration_type r = main ->
    reserve_list (get_event_registrations db (e_id e)) <> [] ->
    let db' := snd (unregister_user db (e_id e) (r_user_id r)) in
    Z.of_nat (length (main_list (get_event_registrations db' (e_id e))))
    = e_max_players e
    /\ (length (reserve_list (get_event_registrations db' (e_id e))) + 1
        = length (reserve_list (get_event_registrations db (e_id e))))%nat.
Proof.
  intros db e r Hreach He Hin Hid Hact Htype Hne db'.
  destruct (reachable_schema db Hreach) as [_ Huq _].
  assert (Hcap := reachable_capacity db Hreach e He).
  assert (Hinv := reachable_reserve db Hreach e He).
  unfold db'. rewrite !get_event_registrations_eq in *.
  cbn [main_list reserve_list] in *.
  rewrite !length_map,
    !(Permutation_length (order_by_perm by_registered_at _)).
  assert (Hpos : 0 < rowcount (active_of_type (e_id e) reserve)
                              (registrations db)).
  { unfold rowcount.
    rewrite <- (Permutation_length (order_by_perm by_registered_at _)).
    destruct (order_by by_registered_at _);
      [contradiction | cbn [length]; lia]. }
  rewrite <- Hid in *.
  destruct (unregister_user_main_counts db r Huq Hin Hact Htype Hpos)
    as [Hm Hr].
  specialize (Hinv Hpos). unfold rowcount in *. lia.
Qed.

Lemma leaving_main_keeps_main_full_witness :
  Z.of_nat (length (main_list (get_event_registrations
                                 (snd (unregister_user db_full 1 10)) 1))) = 2.
Proof.
  refine (proj1 (leaving_main_keeps_main_full db_full
                   (mk_event 1 "25/12/2024" "19:00" 2 "Christmas game" 1 100
                             active)
                   (mk_registration 1 1 10 (Some "ann"%string)
                                    (Some "Ann"%string) main 101 active)
                   reachable_example_full (or_introl eq_refl)
                   (or_introl eq_refl) eq_refl eq_refl eq_refl _)).
  discriminate.
Defined.
